(** * rag-track: the chunker and the report accumulation of the two pipelines

    A shallow embedding of
    - [rag_track/pipelines/embedding/nodes.py]
      ([_split_text_into_chunks], [generate_embeddings_and_upsert],
      [generate_execution_reports]) and
    - [rag_track/pipelines/extract/nodes.py] ([convert_pdfs_to_text]).

    Python integers are unbounded and are modelled by [Z].  A Python [str] is
    a sequence of Unicode code points and is modelled by a list of code
    points.  Calls into the object store, the PDF converter, the embedding
    model and the vector database are calls into collaborators whose code is
    not part of the repository: they are section variables acting on an
    abstract world, and each of them may return or raise.  The calls to
    [logger] are left out: they change none of the values modelled here. *)

From Stdlib Require Import ZArith List Bool Lia String Ascii NArith QArith Permutation.
Import ListNotations.
Local Open Scope Z_scope.

(** ** Python strings *)

Definition char := N.
Definition str := list char.

(** String literals of the source. *)
Definition py (s : string) : str := map N_of_ascii (list_ascii_of_string s).

Definition len {A : Type} (l : list A) : Z := Z.of_nat (List.length l).

Definition space : char := 32%N.

(** [str.isspace] on one code point, the table of CPython's
    [_PyUnicode_IsWhitespace]. *)
Definition isspace (c : char) : bool :=
  ((9 <=? c) && (c <=? 13) || (28 <=? c) && (c <=? 32)
   || (c =? 133) || (c =? 160) || (c =? 5760)
   || (8192 <=? c) && (c <=? 8202)
   || (c =? 8232) || (c =? 8233) || (c =? 8239) || (c =? 8287)
   || (c =? 12288))%N.

(** Index adjustment of a slice bound, as CPython does for [s[a:b]] and for
    the optional bounds of [find]/[rfind]: a negative index counts from the
    end, and the result is clamped to [0 .. len s]. *)
Definition adjust_index (n i : Z) : Z :=
  if i <? 0 then Z.max 0 (i + n) else Z.min i n.

(** [text[a:b]] *)
Definition slice {A : Type} (text : list A) (a b : Z) : list A :=
  let a' := adjust_index (len text) a in
  let b' := adjust_index (len text) b in
  firstn (Z.to_nat (b' - a')) (skipn (Z.to_nat a') text).

(** Scan of [l], whose first element has index [i], for the last index in
    [lo, hi) holding [c]; [acc] is the answer so far. *)
Fixpoint rfind_scan (c : char) (l : str) (i lo hi acc : Z) : Z :=
  match l with
  | [] => acc
  | x :: l' =>
      rfind_scan c l' (i + 1) lo hi
        (if (lo <=? i) && (i <? hi) && (x =? c)%N then i else acc)
  end.

(** [text.rfind(c, a, b)] for a one-character needle: the highest index in
    the adjusted range holding [c], or [-1]. *)
Definition rfind (text : str) (c : char) (a b : Z) : Z :=
  rfind_scan c text 0 (adjust_index (len text) a) (adjust_index (len text) b) (-1).

Fixpoint lstrip (s : str) : str :=
  match s with
  | [] => []
  | c :: s' => if isspace c then lstrip s' else s
  end.

Definition rstrip (s : str) : str := rev (lstrip (rev s)).

(** [s.strip()] *)
Definition strip (s : str) : str := rstrip (lstrip s).

(** Truth value of a string: [if chunk:]. *)
Definition truthy (s : str) : bool :=
  match s with [] => false | _ :: _ => true end.

(** ** The chunker *)

Module Chunker.

(** Lines 162-169: the end of the window that starts at [start]. *)
Definition window_end (text : str) (chunk_size start : Z) : Z :=
  let end_ := start + chunk_size in
  if end_ <? len text then
    let space_pos := rfind text space start end_ in
    if space_pos >? start then space_pos else end_
  else end_.

(** Lines 171-173. *)
Definition append_chunk (chunks : list str) (chunk : str) : list str :=
  if truthy chunk then chunks ++ [chunk] else chunks.

(** Line 176. *)
Definition next_start (text : str) (overlap end_ : Z) : Z :=
  if end_ <? len text then end_ - overlap else end_.

(** Lines 161-176, the [while] loop.  [fuel] bounds the number of
    iterations; [None] says the bound was reached with the loop condition
    still true. *)
Fixpoint while_loop (fuel : nat) (text : str) (chunk_size overlap : Z)
    (start : Z) (chunks : list str) : option (list str) :=
  if start <? len text then
    match fuel with
    | O => None
    | S fuel' =>
        let end_ := window_end text chunk_size start in
        let chunk := strip (slice text start end_) in
        let chunks := append_chunk chunks chunk in
        let start := next_start text overlap end_ in
        while_loop fuel' text chunk_size overlap start chunks
    end
  else Some chunks.

Definition _split_text_into_chunks (fuel : nat) (text : str)
    (chunk_size overlap : Z) : option (list str) :=
  if len text <=? chunk_size then Some [text]
  else while_loop fuel text chunk_size overlap 0 [].

(** The same loop, recording for every chunk that is appended the bounds
    [(start, end)] it was sliced with. *)
Fixpoint while_ranges (fuel : nat) (text : str) (chunk_size overlap : Z)
    (start : Z) (ranges : list (Z * Z)) : option (list (Z * Z)) :=
  if start <? len text then
    match fuel with
    | O => None
    | S fuel' =>
        let end_ := window_end text chunk_size start in
        let chunk := strip (slice text start end_) in
        let ranges := if truthy chunk then ranges ++ [(start, end_)] else ranges in
        let start := next_start text overlap end_ in
        while_ranges fuel' text chunk_size overlap start ranges
    end
  else Some ranges.

Definition chunk_ranges (fuel : nat) (text : str) (chunk_size overlap : Z)
  : option (list (Z * Z)) :=
  if len text <=? chunk_size then Some [(0, len text)]
  else while_ranges fuel text chunk_size overlap 0 [].

(** A position is covered by a range when the slice taken with the range's
    bounds contains it. *)
Definition covers (n : Z) (r : Z * Z) (i : Z) : bool :=
  (adjust_index n (fst r) <=? i) && (i <? adjust_index n (snd r)).

End Chunker.

(** ** Exceptions, results and the monad of a pipeline node *)

(** An instance of Python's [Exception], the class that the handlers of the
    nodes match.  Only [str(e)] is ever used. *)
Inductive exn : Type := Exception (msg : str).

Definition str_of (e : exn) : str := match e with Exception msg => msg end.

Inductive result (A : Type) : Type :=
| Ok (a : A)
| Raise (e : exn).
Arguments Ok {A} a.
Arguments Raise {A} e.

(** A computation of a node runs over the outside world [W] and the node's
    local variables [L].  It returns or raises, and the state reached is kept
    in both cases: what a [try] body did to a report before it raised stays
    done.  [None] says that the computation does not return at all. *)
Definition M (W L A : Type) : Type := W * L -> option (W * L * result A).

Section Monad.
Context {W L : Type}.

Definition ret {A} (a : A) : M W L A := fun s => Some (s, Ok a).

Definition raise {A} (e : exn) : M W L A := fun s => Some (s, Raise e).

Definition bind {A B} (m : M W L A) (k : A -> M W L B) : M W L B :=
  fun s =>
    match m s with
    | None => None
    | Some (s', Ok a) => k a s'
    | Some (s', Raise e) => Some (s', Raise e)
    end.

(** A call into a collaborator. *)
Definition call {A} (op : W -> W * result A) : M W L A :=
  fun s => let (w', r) := op (fst s) in Some ((w', snd s), r).

(** A call that cannot raise. *)
Definition ask {A} (op : W -> W * A) : M W L A :=
  fun s => let (w', a) := op (fst s) in Some ((w', snd s), Ok a).

Definition of_result {A} (r : result A) : M W L A := fun s => Some (s, r).

(** A computation of the repository that may run forever. *)
Definition of_option {A} (o : option A) : M W L A :=
  fun s => match o with Some a => Some (s, Ok a) | None => None end.

Definition get_locals : M W L L := fun s => Some (s, Ok (snd s)).

Definition modify (f : L -> L) : M W L unit :=
  fun s => Some ((fst s, f (snd s)), Ok tt).

(** [try: body except Exception as e: handler e] *)
Definition try_except {A} (body : M W L A) (handler : exn -> M W L A)
  : M W L A :=
  fun s =>
    match body s with
    | None => None
    | Some (s', Ok a) => Some (s', Ok a)
    | Some (s', Raise e) => handler e s'
    end.

(** [with enter as x: body x], for a context manager whose [__exit__]
    lets the exception of the body through. *)
Definition with_as {R A} (enter : M W L R) (exit : R -> M W L unit)
    (body : R -> M W L A) : M W L A :=
  bind enter (fun x s =>
    match body x s with
    | None => None
    | Some (s', Ok a) => bind (exit x) (fun _ => ret a) s'
    | Some (s', Raise e) => bind (exit x) (fun _ => raise e) s'
    end).

(** [for x in l: body x] *)
Fixpoint for_each {A} (body : A -> M W L unit) (l : list A) : M W L unit :=
  match l with
  | [] => ret tt
  | x :: l' => bind (body x) (fun _ => for_each body l')
  end.

(** A block with local variables of its own, given back at its end. *)
Definition block {L' A} (init : L') (m : M W L' A) : M W L (A * L') :=
  fun s =>
    match m (fst s, init) with
    | None => None
    | Some ((w', l'), Ok a) => Some ((w', snd s), Ok (a, l'))
    | Some ((w', _), Raise e) => Some ((w', snd s), Raise e)
    end.
End Monad.

Declare Scope node_scope.
Delimit Scope node_scope with node.
Notation "x <- m ;; k" := (bind m (fun x => k))
  (at level 61, m at next level, right associativity) : node_scope.
Notation "m ;; k" := (bind m (fun _ => k))
  (at level 61, right associativity) : node_scope.

(** ** Python dictionaries with string keys, in insertion order *)

Definition str_eqb (a b : str) : bool :=
  if list_eq_dec N.eq_dec a b then true else false.

Definition dict (V : Type) : Type := list (str * V).

Fixpoint dict_get {V} (d : dict V) (k : str) : option V :=
  match d with
  | [] => None
  | (k', v) :: d' => if str_eqb k' k then Some v else dict_get d' k
  end.

Fixpoint dict_set {V} (d : dict V) (k : str) (v : V) : dict V :=
  match d with
  | [] => [(k, v)]
  | (k', v') :: d' =>
      if str_eqb k' k then (k, v) :: d' else (k', v') :: dict_set d' k v
  end.

Definition keys {V} (d : dict V) : list str := map fst d.
Definition values {V} (d : dict V) : list V := map snd d.

(** ** The extract pipeline: [convert_pdfs_to_text] *)

Module Extract.

Local Open Scope node_scope.

Record converted_file : Type := {
  original_pdf : str;
  output_txt : str;
  filename : str;
  status : str
}.

Record failed_file : Type := {
  failed_original_pdf : str;
  error : str;
  failed_status : str
}.

Record conversion_index : Type := {
  converted_files : list converted_file;
  failed_files : list failed_file;
  total_processed : Z;
  total_successful : Z;
  total_failed : Z
}.

(** The local variables of the node that the loop updates. *)
Record locals : Type := {
  texts_data : dict str;
  converted_index : conversion_index
}.

(** The collaborators of the node: the S3 client, the docling converter, the
    temporary file and the functions of the standard library.  Each call
    acts on the world and returns or raises. *)
Class Env (W : Type) : Type := {
  document : Type;
  bytes : Type;
  boto3_client : W -> W * result unit;
  DocumentConverter : W -> W * result unit;
  NamedTemporaryFile : W -> W * result str;
  close_file : str -> W -> W * result unit;
  download_file : str -> str -> str -> W -> W * result unit;
  convert : str -> W -> W * result document;
  export_to_markdown : document -> W -> W * result str;
  stem : str -> str;
  encode_utf8 : str -> result bytes;
  put_object : str -> str -> bytes -> W -> W * result unit;
  unlink : str -> W -> W * result unit
}.

(** Lines 130-136. *)
Definition index_success (pdf_key output_key pdf_filename : str)
    (ix : conversion_index) : conversion_index :=
  {| converted_files := converted_files ix ++
       [ {| original_pdf := pdf_key; output_txt := output_key;
            filename := pdf_filename; status := py "success" |} ];
     failed_files := failed_files ix;
     total_processed := total_processed ix;
     total_successful := total_successful ix + 1;
     total_failed := total_failed ix |}.

(** Lines 145-150. *)
Definition index_failure (pdf_key : str) (e : exn) (ix : conversion_index)
  : conversion_index :=
  {| converted_files := converted_files ix;
     failed_files := failed_files ix ++
       [ {| failed_original_pdf := pdf_key; error := str_of e;
            failed_status := py "failed" |} ];
     total_processed := total_processed ix;
     total_successful := total_successful ix;
     total_failed := total_failed ix + 1 |}.

(** Line 152. *)
Definition index_processed (ix : conversion_index) : conversion_index :=
  {| converted_files := converted_files ix;
     failed_files := failed_files ix;
     total_processed := total_processed ix + 1;
     total_successful := total_successful ix;
     total_failed := total_failed ix |}.

Definition on_index (f : conversion_index -> conversion_index) (l : locals) : locals :=
  {| texts_data := texts_data l; converted_index := f (converted_index l) |}.

Section ExtractNode.
Context {W : Type} {E : Env W}.

(** Line 127. *)
Definition store_text (pdf_filename text_content : str) : M W locals unit :=
  modify (fun l => {| texts_data := dict_set (texts_data l) pdf_filename text_content;
                      converted_index := converted_index l |}).

Definition record_success (pdf_key output_key pdf_filename : str) : M W locals unit :=
  modify (on_index (index_success pdf_key output_key pdf_filename)).

Definition record_failure (pdf_key : str) (e : exn) : M W locals unit :=
  modify (on_index (index_failure pdf_key e)).

Definition count_processed : M W locals unit :=
  modify (on_index index_processed).

(** Lines 105-138, the body of the [with] statement; it gives back the
    name of the temporary file, which line 141 uses. *)
Definition with_body (bucket_name pdf_key temp_pdf_name : str) : M W locals str :=
  call (download_file bucket_name pdf_key temp_pdf_name) ;;
  result <- call (convert temp_pdf_name) ;;
  text_content <- call (export_to_markdown result) ;;
  let pdf_filename := stem pdf_key in
  let output_key := py "intermedio/txt/" ++ pdf_filename ++ py ".txt" in
  body <- of_result (encode_utf8 text_content) ;;
  call (put_object bucket_name output_key body) ;;
  store_text pdf_filename text_content ;;
  record_success pdf_key output_key pdf_filename ;;
  ret temp_pdf_name.

(** Lines 102-141, the body of the [try] statement. *)
Definition try_body (bucket_name pdf_key : str) : M W locals unit :=
  temp_pdf_name <- with_as (call NamedTemporaryFile)
                     (fun name => call (close_file name))
                     (with_body bucket_name pdf_key) ;;
  call (unlink temp_pdf_name).

(** Lines 101-152, one iteration of the loop. *)
Definition convert_one (bucket_name pdf_key : str) : M W locals unit :=
  try_except (try_body bucket_name pdf_key) (record_failure pdf_key) ;;
  count_processed.

Definition initial_locals : locals :=
  {| texts_data := [];
     converted_index :=
       {| converted_files := []; failed_files := [];
          total_processed := 0; total_successful := 0; total_failed := 0 |} |}.

(** Lines 100-152. *)
Definition convert_loop (bucket_name : str) (pdf_files : list str) : M W locals unit :=
  for_each (convert_one bucket_name) pdf_files.

Definition convert_pdfs_to_text (pdf_files : list str) (bucket_name : str)
  : M W unit locals :=
  call boto3_client ;;
  call DocumentConverter ;;
  r <- block initial_locals (convert_loop bucket_name pdf_files) ;;
  ret (snd r).
End ExtractNode.

(** The keys of the items listed as converted and as failed. *)
Definition converted_keys (ix : conversion_index) : list str :=
  map original_pdf (converted_files ix).
Definition failed_keys (ix : conversion_index) : list str :=
  map failed_original_pdf (failed_files ix).

End Extract.

(** ** The embedding pipeline *)

Module Embedding.

Local Open Scope node_scope.

Record processed_document : Type := {
  filename : str;
  chunks_created : Z;
  status : str
}.

Record failed_document : Type := {
  failed_filename : str;
  error : str;
  failed_status : str
}.

(** A Python number: [int], or [float] given by the exact quotient that the
    float rounds. *)
Inductive number : Type :=
| PyInt (z : Z)
| PyFloat (q : Q).

Record report_summary : Type := {
  success_rate : number;
  processing_time : str
}.

Record embedding_report : Type := {
  timestamp : str;
  total_documents : Z;
  processed_documents : list processed_document;
  failed_documents : list failed_document;
  total_vectors_created : Z;
  total_vectors_failed : Z;
  execution_summary : option report_summary
}.

Record collection_detail : Type := {
  vector_size : Z;
  distance_metric : str;
  documents_added : Z;
  vectors_added : Z
}.

Record collections_summary : Type := {
  total_collections : Z;
  total_vectors_across_collections : Z;
  collections_processing_time : str
}.

Record collections_used : Type := {
  collections_timestamp : str;
  collections : list str;
  collection_details : dict collection_detail;
  collections_execution_summary : option collections_summary
}.

Record payload : Type := {
  payload_filename : str;
  chunk_index : Z;
  text : str;
  total_chunks : Z;
  source : str;
  created_at : str
}.

Record PointStruct (vector : Type) : Type := {
  id : str;
  point_vector : vector;
  point_payload : payload
}.
Arguments id {vector} _.
Arguments point_vector {vector} _.
Arguments point_payload {vector} _.

(** The two reports are the local variables that the loop updates. *)
Definition locals : Type := (embedding_report * collections_used)%type.

(** The collaborators of the node: the Qdrant client, the embedding model,
    [uuid] and the clock. *)
Class Env (W : Type) : Type := {
  vector : Type;
  QdrantClient : W -> W * result unit;
  TextEmbedding : str -> W -> W * result unit;
  get_collection : str -> W -> W * result unit;
  create_collection : str -> Z -> str -> W -> W * result unit;
  embed : str -> W -> W * result vector;
  uuid4 : W -> W * str;
  now_isoformat : W -> W * str;
  upsert : str -> list (PointStruct vector) -> W -> W * result unit
}.

Definition collection_name : str := py "documents".
Definition the_vector_size : Z := 384.

(** Lines 116-121. *)
Definition report_success (name : str) (chunks : list str) (r : embedding_report)
  : embedding_report :=
  {| timestamp := timestamp r;
     total_documents := total_documents r;
     processed_documents := processed_documents r ++
       [ {| filename := name; chunks_created := len chunks;
            status := py "success" |} ];
     failed_documents := failed_documents r;
     total_vectors_created := total_vectors_created r + len chunks;
     total_vectors_failed := total_vectors_failed r;
     execution_summary := execution_summary r |}.

(** Lines 130-135. *)
Definition report_failure (name : str) (e : exn) (r : embedding_report)
  : embedding_report :=
  {| timestamp := timestamp r;
     total_documents := total_documents r;
     processed_documents := processed_documents r;
     failed_documents := failed_documents r ++
       [ {| failed_filename := name; error := str_of e;
            failed_status := py "failed" |} ];
     total_vectors_created := total_vectors_created r;
     total_vectors_failed := total_vectors_failed r + 1;
     execution_summary := execution_summary r |}.

(** Line 123. *)
Definition add_document (d : collection_detail) : collection_detail :=
  {| vector_size := vector_size d; distance_metric := distance_metric d;
     documents_added := documents_added d + 1;
     vectors_added := vectors_added d |}.

(** Line 124. *)
Definition add_vectors (n : Z) (d : collection_detail) : collection_detail :=
  {| vector_size := vector_size d; distance_metric := distance_metric d;
     documents_added := documents_added d;
     vectors_added := vectors_added d + n |}.

Definition with_detail (name : str) (d : collection_detail) (c : collections_used)
  : collections_used :=
  {| collections_timestamp := collections_timestamp c;
     collections := collections c;
     collection_details := dict_set (collection_details c) name d;
     collections_execution_summary := collections_execution_summary c |}.

Section EmbeddingNode.
Context {W : Type} {E : Env W}.

(** Lines 47-55: create the collection if it does not exist. *)
Definition ensure_collection {L} : M W L unit :=
  try_except
    (call (get_collection collection_name))
    (fun _ => call (create_collection collection_name the_vector_size (py "Cosine"))).

Definition record_success (name : str) (chunks : list str) : M W locals unit :=
  modify (fun l => (report_success name chunks (fst l), snd l)).

Definition record_failure (name : str) (e : exn) : M W locals unit :=
  modify (fun l => (report_failure name e (fst l), snd l)).

(** [collections_used["collection_details"][name][field] += n], through
    [f]: the lookup of [name] raises [KeyError] when the key is absent. *)
Definition update_detail (name : str) (f : collection_detail -> collection_detail)
  : M W locals unit :=
  l <- get_locals ;;
  match dict_get (collection_details (snd l)) name with
  | None => raise (Exception (py "'" ++ name ++ py "'"))
  | Some d => modify (fun l => (fst l, with_detail name (f d) (snd l)))
  end.

(** Lines 88-107: one point per chunk, [i] being the index of the first
    chunk of [chunks] in the document and [total] the document's
    [len(chunks)]. *)
Fixpoint build_points (name : str) (total i : Z) (chunks : list str)
    (points : list (PointStruct vector)) : M W locals (list (PointStruct vector)) :=
  match chunks with
  | [] => ret points
  | chunk :: rest =>
      embedding <- call (embed chunk) ;;
      point_id <- ask uuid4 ;;
      now <- ask now_isoformat ;;
      build_points name total (i + 1) rest
        (points ++
         [ {| id := point_id; point_vector := embedding;
              point_payload :=
                {| payload_filename := name; chunk_index := i; text := chunk;
                   total_chunks := total; source := py "pdf_conversion";
                   created_at := now |} |} ])
  end.

(** Lines 83-124, the body of the [try] statement. *)
Definition try_body (fuel : nat) (name text_content : str) : M W locals unit :=
  chunks <- of_option (Chunker._split_text_into_chunks fuel text_content 1000 200) ;;
  points <- build_points name (len chunks) 0 chunks [] ;;
  call (upsert collection_name points) ;;
  record_success name chunks ;;
  update_detail collection_name add_document ;;
  update_detail collection_name (add_vectors (len chunks)).

(** Lines 82-135, one iteration of the loop. *)
Definition embed_one (fuel : nat) (item : str * str) : M W locals unit :=
  try_except (try_body fuel (fst item) (snd item)) (record_failure (fst item)).

(** Lines 81-135. *)
Definition embed_loop (fuel : nat) (texts_partitioned : dict str) : M W locals unit :=
  for_each (embed_one fuel) texts_partitioned.

(** Lines 58-78. *)
Definition initial_reports (texts_partitioned : dict str) : M W unit locals :=
  t1 <- ask now_isoformat ;;
  t2 <- ask now_isoformat ;;
  ret ({| timestamp := t1;
          total_documents := len texts_partitioned;
          processed_documents := [];
          failed_documents := [];
          total_vectors_created := 0;
          total_vectors_failed := 0;
          execution_summary := None |},
       {| collections_timestamp := t2;
          collections := [collection_name];
          collection_details :=
            [ (collection_name,
               {| vector_size := the_vector_size;
                  distance_metric := py "COSINE";
                  documents_added := 0;
                  vectors_added := 0 |}) ];
          collections_execution_summary := None |}).

Definition generate_embeddings_and_upsert (fuel : nat)
    (texts_partitioned : dict str) (converted_index : Extract.conversion_index)
  : M W unit locals :=
  call QdrantClient ;;
  call (TextEmbedding (py "BAAI/bge-small-en-v1.5")) ;;
  ensure_collection ;;
  reports <- initial_reports texts_partitioned ;;
  r <- block reports (embed_loop fuel texts_partitioned) ;;
  ret (snd r).

(** [a / b] on integers.  The float that Python returns, the double
    nearest to the quotient, is represented by the exact quotient. *)
Definition truediv (a b : Z) : result number :=
  if b =? 0 then Raise (Exception (py "division by zero"))
  else Ok (PyFloat (inject_Z a / inject_Z b)).

(** Lines 199-204, the conditional expression. *)
Definition success_rate_of (r : embedding_report) : result number :=
  if total_vectors_created r + total_vectors_failed r >? 0
  then truediv (total_vectors_created r)
               (total_vectors_created r + total_vectors_failed r)
  else Ok (PyInt 0).

(** Lines 210-213. *)
Definition sum_vectors_added (details : dict collection_detail) : Z :=
  fold_left Z.add (map vectors_added (values details)) 0.

Definition generate_execution_reports (r : embedding_report) (c : collections_used)
  : M W unit locals :=
  rate <- of_result (success_rate_of r) ;;
  t1 <- ask now_isoformat ;;
  let r' :=
    {| timestamp := timestamp r;
       total_documents := total_documents r;
       processed_documents := processed_documents r;
       failed_documents := failed_documents r;
       total_vectors_created := total_vectors_created r;
       total_vectors_failed := total_vectors_failed r;
       execution_summary :=
         Some {| success_rate := rate; processing_time := t1 |} |} in
  let total := len (collections c) in
  let vectors := sum_vectors_added (collection_details c) in
  t2 <- ask now_isoformat ;;
  let c' :=
    {| collections_timestamp := collections_timestamp c;
       collections := collections c;
       collection_details := collection_details c;
       collections_execution_summary :=
         Some {| total_collections := total;
                 total_vectors_across_collections := vectors;
                 collections_processing_time := t2 |} |} in
  ret (r', c').
End EmbeddingNode.

End Embedding.

(** ** Vocabulary of the properties *)

(** [c] is a substring of [s]. *)
Definition substring (c s : str) : Prop :=
  exists before after, s = before ++ c ++ after.

(** [text[p]] for an index that is not negative. *)
Definition char_at (text : str) (p : Z) : option char :=
  if p <? 0 then None else nth_error text (Z.to_nat p).

(** The last space of the window: [e] is a space strictly inside
    [(start, stop)] and no later position of the window holds one. *)
Definition last_space_in (text : str) (start stop e : Z) : Prop :=
  start < e < stop /\ char_at text e = Some space /\
  forall q, e < q < stop -> char_at text q <> Some space.

(** The word-boundary rule as the specification words it: any space of
    [[start, start + chunk_size)] is where the chunk ends. *)
Definition ends_at_a_space_of_the_window (text : str) (chunk_size start : Z) : Prop :=
  start + chunk_size < len text ->
  (exists p, start <= p < start + chunk_size /\ char_at text p = Some space) ->
  char_at text (Chunker.window_end text chunk_size start) = Some space.

(** The slice bounds of a chunk cover position [i] of a text of length [n]. *)
Definition covered (n : Z) (ranges : list (Z * Z)) (i : Z) : bool :=
  existsb (fun r => Chunker.covers n r i) ranges.

(** The chunk cut out by a pair of slice bounds. *)
Definition chunk_of (text : str) (r : Z * Z) : str :=
  strip (slice text (fst r) (snd r)).

(** The two reports of the embedding node agree on the documents and on the
    vectors added to the collection. *)
Definition reports_agree (l : Embedding.locals) : Prop :=
  exists d,
    dict_get (Embedding.collection_details (snd l)) Embedding.collection_name = Some d /\
    Embedding.documents_added d = len (Embedding.processed_documents (fst l)) /\
    Embedding.vectors_added d = Embedding.total_vectors_created (fst l).

(** A computation that returns or raises, whatever the state. *)
Definition total {W L A} (m : M W L A) : Prop :=
  forall s, exists s' r, m s = Some (s', r).

(** A computation that, moreover, leaves the local variables alone. *)
Definition world_only {W L A} (m : M W L A) : Prop :=
  forall s, exists w' r, m s = Some ((w', snd s), r).

(** The local variables of the extract node once lines 127-136 have run
    for [pdf_key] and its text. *)
Definition converted {W} {E : Extract.Env W} (pdf_key text_content : str)
    (l : Extract.locals) : Extract.locals :=
  Extract.on_index
    (Extract.index_success pdf_key
       (py "intermedio/txt/" ++ Extract.stem pdf_key ++ py ".txt")
       (Extract.stem pdf_key))
    {| Extract.texts_data :=
         dict_set (Extract.texts_data l) (Extract.stem pdf_key) text_content;
       Extract.converted_index := Extract.converted_index l |}.

(** The chunking of a document returns within [fuel] iterations. *)
Definition chunking_returns (fuel : nat) (item : str * str) : Prop :=
  Chunker._split_text_into_chunks fuel (snd item) 1000 200 <> None.

(** The names of the documents listed as processed and as failed. *)
Definition processed_names (r : Embedding.embedding_report) : list str :=
  map Embedding.filename (Embedding.processed_documents r).
Definition failed_names (r : Embedding.embedding_report) : list str :=
  map Embedding.failed_filename (Embedding.failed_documents r).

(** ** Reference environments *)

(** [PurePosixPath(key).stem] for a key that does not end in a slash: the
    last component, without its last suffix. *)
Definition posix_name (key : str) : str :=
  slice key (rfind key 47%N 0 (len key) + 1) (len key).

Definition posix_stem (key : str) : str :=
  let name := posix_name key in
  let dot := rfind name 46%N 0 (len name) in
  if (0 <? dot) && (dot <? len name - 1) then slice name 0 dot else name.

(** An object store and a converter that work, except that a download
    fails for the keys outside [stored] and that removing the temporary
    file fails when [removable] is false. *)
Definition scripted_store (stored : str -> bool) (removable : bool) : Extract.Env unit :=
  {| Extract.document := str;
     Extract.bytes := str;
     Extract.boto3_client := fun w => (w, Ok tt);
     Extract.DocumentConverter := fun w => (w, Ok tt);
     Extract.NamedTemporaryFile := fun w => (w, Ok (py "/tmp/tmpq1w2e3.pdf"));
     Extract.close_file := fun _ w => (w, Ok tt);
     Extract.download_file := fun _ key _ w =>
       if stored key then (w, Ok tt)
       else (w, Raise (Exception (py "An error occurred (404) when calling the HeadObject operation: Not Found")));
     Extract.convert := fun _ w => (w, Ok (py "# Title"));
     Extract.export_to_markdown := fun d w => (w, Ok d);
     Extract.stem := posix_stem;
     Extract.encode_utf8 := fun s => Ok s;
     Extract.put_object := fun _ _ _ w => (w, Ok tt);
     Extract.unlink := fun _ w =>
       if removable then (w, Ok tt)
       else (w, Raise (Exception (py "[Errno 13] Permission denied: '/tmp/tmpq1w2e3.pdf'"))) |}.

(** A model of the vector database, a collaborator whose client library
    is not part of the repository: [get_collection] answers whether the
    collection exists, by returning or raising; [create_collection] adds a
    collection; [upsert] writes points into an existing collection.  The
    state holds the names of the collections and the [create_collection]
    calls received, oldest first. *)
Module Qdrant.

Record db : Type := {
  existing : list str;
  create_calls : list str;
  upserts : Z
}.

Definition has (d : db) (name : str) : bool := existsb (str_eqb name) (existing d).

Definition get_collection (name : str) (d : db) : db * result unit :=
  if has d name then (d, Ok tt)
  else (d, Raise (Exception (py "Not found: Collection `" ++ name ++ py "` doesn't exist!"))).

Definition create_collection (name : str) (size : Z) (distance : str) (d : db)
  : db * result unit :=
  let called := {| existing := existing d;
                   create_calls := create_calls d ++ [name];
                   upserts := upserts d |} in
  if has d name
  then (called, Raise (Exception (py "Collection `" ++ name ++ py "` already exists!")))
  else ({| existing := existing d ++ [name];
           create_calls := create_calls d ++ [name];
           upserts := upserts d |}, Ok tt).

Definition upsert {P : Type} (writable : bool) (name : str) (points : list P) (d : db)
  : db * result unit :=
  if writable && has d name
  then ({| existing := existing d; create_calls := create_calls d;
           upserts := upserts d + len points |}, Ok tt)
  else (d, Raise (Exception (py "timed out"))).

(** The client of the database, with an embedding model that maps every
    chunk to its length; [writable] says whether upserts go through. *)
Definition client (writable : bool) : Embedding.Env db :=
  {| Embedding.vector := Z;
     Embedding.QdrantClient := fun d => (d, Ok tt);
     Embedding.TextEmbedding := fun _ d => (d, Ok tt);
     Embedding.get_collection := get_collection;
     Embedding.create_collection := create_collection;
     Embedding.embed := fun chunk d => (d, Ok (len chunk));
     Embedding.uuid4 := fun d => (d, py "5f0c7b1e-2d3a-4c8e-9f6b-0a1b2c3d4e5f");
     Embedding.now_isoformat := fun d => (d, py "2025-01-01T00:00:00");
     Embedding.upsert := fun name points d => upsert writable name points d |}.

Definition empty : db := {| existing := []; create_calls := []; upserts := 0 |}.

(** A database that has the collection of the node. *)
Definition ready : db :=
  {| existing := [Embedding.collection_name];
     create_calls := [Embedding.collection_name];
     upserts := 0 |}.

End Qdrant.

(** Inputs of the examples. *)
Definition letters (c : ascii) (n : nat) : str := repeat (N_of_ascii c) n.

(** ** The lister of the extract pipeline: [list_pdfs_from_s3] *)

Module Lister.

Local Open Scope node_scope.

(** An entry of [response['Contents']]; S3 gives every entry its ['Key']. *)
Record s3_object : Type := { Key : str }.

(** The answer of [list_objects_v2]: the key ['Contents'] is absent when
    nothing matches the prefix. *)
Record response : Type := { Contents : option (list s3_object) }.

(** The collaborators of the node: the S3 client, and [str.lower] of the
    standard library. *)
Class Env (W : Type) : Type := {
  boto3_client : W -> W * result unit;
  list_objects_v2 : str -> str -> W -> W * result response;
  lower : str -> str
}.

(** [s.endswith(suffix)] *)
Definition endswith (s suffix : str) : bool :=
  (len suffix <=? len s) && str_eqb (slice s (len s - len suffix) (len s)) suffix.

Section ListerNode.
Context {W : Type} {E : Env W}.

(** Line 50. *)
Definition is_pdf (key : str) : bool := endswith (lower key) (py ".pdf").

(** Lines 48-52, the loop over [response['Contents']]. *)
Fixpoint collect (contents : list s3_object) (pdf_files : list str) : list str :=
  match contents with
  | [] => pdf_files
  | obj :: rest =>
      let key := Key obj in
      collect rest (if is_pdf key then pdf_files ++ [key] else pdf_files)
  end.

(** Lines 31-62: both handlers log and raise the exception again. *)
Definition list_pdfs_from_s3 (bucket_name prefix : str) : M W unit (list str) :=
  try_except
    (call boto3_client ;;
     response <- call (list_objects_v2 bucket_name prefix) ;;
     ret (match Contents response with
          | Some contents => collect contents []
          | None => []
          end))
    (fun e => raise e).
End ListerNode.

End Lister.

(** ** Further vocabulary *)

(** The first character, if any, is not whitespace. *)
Definition starts_clean (s : str) : Prop :=
  match s with
  | [] => True
  | c :: _ => isspace c = false
  end.

(** Neither the first nor the last character is whitespace. *)
Definition trimmed (s : str) : Prop := starts_clean s /\ starts_clean (rev s).

(** The sum of the [chunks_created] of the documents listed as processed. *)
Definition sum_chunks_created (r : Embedding.embedding_report) : Z :=
  fold_right Z.add 0 (map Embedding.chunks_created (Embedding.processed_documents r)).

(** The payload fields that a point takes from its chunk. *)
Definition payload_of_chunk {V : Type} (name : str) (total index : Z) (chunk : str)
    (p : Embedding.PointStruct V) : Prop :=
  Embedding.payload_filename (Embedding.point_payload p) = name /\
  Embedding.chunk_index (Embedding.point_payload p) = index /\
  Embedding.text (Embedding.point_payload p) = chunk /\
  Embedding.total_chunks (Embedding.point_payload p) = total /\
  Embedding.source (Embedding.point_payload p) = py "pdf_conversion".

(** ** Further reference environments *)

(** [str.lower] on the ASCII letters. *)
Definition ascii_lower (s : str) : str :=
  map (fun c => if (65 <=? c) && (c <=? 90) then c + 32 else c)%N s.

(** A bucket that lists the given keys, or whose listing raises when
    [reachable] is false. *)
Definition scripted_bucket (reachable : bool) (listed : option (list str))
  : Lister.Env unit :=
  {| Lister.boto3_client := fun w => (w, Ok tt);
     Lister.list_objects_v2 := fun _ _ w =>
       if reachable
       then (w, Ok {| Lister.Contents :=
                        option_map (map (fun k => {| Lister.Key := k |})) listed |})
       else (w, Raise (Exception (py "Could not connect to the endpoint URL")));
     Lister.lower := ascii_lower |}.

(** An object store whose client cannot be built. *)
Definition broken_store : Extract.Env unit :=
  {| Extract.document := str;
     Extract.bytes := str;
     Extract.boto3_client := fun w => (w, Raise (Exception (py "Invalid endpoint")));
     Extract.DocumentConverter := fun w => (w, Ok tt);
     Extract.NamedTemporaryFile := fun w => (w, Ok (py "/tmp/tmpq1w2e3.pdf"));
     Extract.close_file := fun _ w => (w, Ok tt);
     Extract.download_file := fun _ _ _ w => (w, Ok tt);
     Extract.convert := fun _ w => (w, Ok (py "# Title"));
     Extract.export_to_markdown := fun d w => (w, Ok d);
     Extract.stem := posix_stem;
     Extract.encode_utf8 := fun s => Ok s;
     Extract.put_object := fun _ _ _ w => (w, Ok tt);
     Extract.unlink := fun _ w => (w, Ok tt) |}.

(** A vector database that refuses to create collections. *)
Definition read_only_client : Embedding.Env Qdrant.db :=
  {| Embedding.vector := Z;
     Embedding.QdrantClient := fun d => (d, Ok tt);
     Embedding.TextEmbedding := fun _ d => (d, Ok tt);
     Embedding.get_collection := Qdrant.get_collection;
     Embedding.create_collection := fun _ _ _ d =>
       (d, Raise (Exception (py "Forbidden")));
     Embedding.embed := fun chunk d => (d, Ok (len chunk));
     Embedding.uuid4 := fun d => (d, py "5f0c7b1e-2d3a-4c8e-9f6b-0a1b2c3d4e5f");
     Embedding.now_isoformat := fun d => (d, py "2025-01-01T00:00:00");
     Embedding.upsert := fun name points d => Qdrant.upsert true name points d |}.

(** The two reports as the node creates them for no document. *)
Definition fresh_reports : Embedding.locals :=
  ({| Embedding.timestamp := py "2025-01-01T00:00:00";
      Embedding.total_documents := 0;
      Embedding.processed_documents := [];
      Embedding.failed_documents := [];
      Embedding.total_vectors_created := 0;
      Embedding.total_vectors_failed := 0;
      Embedding.execution_summary := None |},
   {| Embedding.collections_timestamp := py "2025-01-01T00:00:00";
      Embedding.collections := [Embedding.collection_name];
      Embedding.collection_details :=
        [ (Embedding.collection_name,
           {| Embedding.vector_size := Embedding.the_vector_size;
              Embedding.distance_metric := py "COSINE";
              Embedding.documents_added := 0;
              Embedding.vectors_added := 0 |}) ];
      Embedding.collections_execution_summary := None |}).

(** * Properties *)

(** ** Strings *)

Lemma len_app {A} (l1 l2 : list A) : len (l1 ++ l2) = len l1 + len l2.
Proof. unfold len; rewrite length_app; lia. Qed.

Lemma substring_refl (s : str) : substring s s.
Proof. exists [], []. now rewrite app_nil_r. Qed.

Lemma substring_trans (a b c : str) :
  substring a b -> substring b c -> substring a c.
Proof.
  intros (p1 & q1 & ->) (p2 & q2 & ->).
  exists (p2 ++ p1), (q1 ++ q2). now rewrite <- !app_assoc.
Qed.

Lemma slice_substring (text : str) (a b : Z) : substring (slice text a b) text.
Proof.
  unfold slice.
  set (m := Z.to_nat (adjust_index (len text) a)).
  set (n := Z.to_nat (adjust_index (len text) b - adjust_index (len text) a)).
  exists (firstn m text), (skipn n (skipn m text)).
  now rewrite firstn_skipn, firstn_skipn.
Qed.

Lemma lstrip_suffix (s : str) : exists ws, s = ws ++ lstrip s.
Proof.
  induction s as [|c s [ws IH]]; simpl.
  - now exists [].
  - destruct (isspace c).
    + exists (c :: ws). simpl. now f_equal.
    + now exists [].
Qed.

Lemma rstrip_prefix (s : str) : exists ws, s = rstrip s ++ ws.
Proof.
  unfold rstrip. destruct (lstrip_suffix (rev s)) as [ws H].
  exists (rev ws). rewrite <- rev_app_distr, <- H. now rewrite rev_involutive.
Qed.

Lemma strip_substring (s : str) : substring (strip s) s.
Proof.
  unfold strip.
  destruct (lstrip_suffix s) as [ws1 H1].
  destruct (rstrip_prefix (lstrip s)) as [ws2 H2].
  exists ws1, ws2. now rewrite <- H2.
Qed.

Lemma truthy_nonempty (s : str) : truthy s = true -> s <> [].
Proof. destruct s; simpl; congruence. Qed.

Lemma adjust_index_id (n i : Z) : 0 <= i <= n -> adjust_index n i = i.
Proof. unfold adjust_index. intros H. destruct (Z.ltb_spec i 0); lia. Qed.

(** What the scan of [rfind] returns: the accumulator when the range holds
    no [c], and the last position of the range holding [c] otherwise. *)
Lemma rfind_scan_spec (c : char) (l : str) :
  forall i lo hi acc,
    (rfind_scan c l i lo hi acc = acc /\
     forall k, lo <= i + Z.of_nat k < hi -> nth_error l k <> Some c) \/
    (exists k, rfind_scan c l i lo hi acc = i + Z.of_nat k /\
       lo <= i + Z.of_nat k < hi /\ nth_error l k = Some c /\
       forall k', (k < k')%nat -> lo <= i + Z.of_nat k' < hi ->
                  nth_error l k' <> Some c).
Proof.
  induction l as [|x l IH]; intros i lo hi acc; simpl.
  - left. split; [reflexivity|]. intros [|k] _; discriminate.
  - set (acc' := if (lo <=? i) && (i <? hi) && (x =? c)%N then i else acc).
    destruct (IH (i + 1) lo hi acc') as [[Hr Hno] | (k & Hr & Hin & Hk & Hlast)].
    + rewrite Hr. subst acc'.
      destruct ((lo <=? i) && (i <? hi) && (x =? c)%N) eqn:Hc.
      * right. exists 0%nat.
        apply andb_prop in Hc as [Hc Hx]. apply andb_prop in Hc as [H1 H2].
        apply N.eqb_eq in Hx. subst x.
        repeat split; try lia.
        intros [|k'] Hk' Hrange; [lia|]. simpl. apply Hno. lia.
      * left. split; [reflexivity|].
        intros [|k] Hrange; simpl.
        -- intros [= ->]. rewrite N.eqb_refl, andb_true_r in Hc.
           apply andb_false_iff in Hc as [Hc|Hc]; lia.
        -- apply Hno. lia.
    + right. exists (S k). rewrite Hr. simpl.
      repeat split; try lia; try assumption.
      intros [|k'] Hk' Hrange; [lia|]. simpl. apply Hlast; lia.
Qed.

(** [rfind] over a range that lies inside the text. *)
Lemma rfind_spec (text : str) (c : char) (a b : Z) :
  0 <= a -> a <= b -> b <= len text ->
  (rfind text c a b = -1 /\
   forall p, a <= p < b -> char_at text p <> Some c) \/
  (a <= rfind text c a b < b /\ char_at text (rfind text c a b) = Some c /\
   forall q, rfind text c a b < q < b -> char_at text q <> Some c).
Proof.
  intros Ha Hab Hb. unfold rfind.
  rewrite !adjust_index_id by lia.
  destruct (rfind_scan_spec c text 0 a b (-1)) as [[Hr Hno] | (k & Hr & Hin & Hk & Hlast)].
  - left. split; [assumption|].
    intros p Hp. unfold char_at. destruct (Z.ltb_spec p 0); [lia|].
    apply Hno. rewrite Z2Nat.id; lia.
  - right. rewrite Hr. simpl. repeat split; try lia.
    + unfold char_at. destruct (Z.ltb_spec (Z.of_nat k) 0); [lia|].
      now rewrite Nat2Z.id.
    + intros q Hq. unfold char_at. destruct (Z.ltb_spec q 0); [lia|].
      apply Hlast; [|rewrite Z2Nat.id; lia].
      apply Nat2Z.inj_lt. rewrite Z2Nat.id; lia.
Qed.

(** ** The chunker *)

Section ChunkerFacts.
Import Chunker.

Lemma while_loop_step (fuel : nat) (text : str) (chunk_size overlap start : Z)
    (chunks : list str) :
  start < len text ->
  while_loop (S fuel) text chunk_size overlap start chunks =
  while_loop fuel text chunk_size overlap
    (next_start text overlap (window_end text chunk_size start))
    (append_chunk chunks
       (strip (slice text start (window_end text chunk_size start)))).
Proof.
  intros H. simpl. destruct (Z.ltb_spec start (len text)); [reflexivity|lia].
Qed.

(** A window whose next start is its own start is taken again and again. *)
Lemma while_loop_stuck (text : str) (chunk_size overlap start : Z) :
  start < len text ->
  next_start text overlap (window_end text chunk_size start) = start ->
  forall fuel chunks, while_loop fuel text chunk_size overlap start chunks = None.
Proof.
  intros Hlt Hfix. induction fuel as [|fuel IH]; intros chunks.
  - simpl. destruct (Z.ltb_spec start (len text)); [reflexivity|lia].
  - rewrite while_loop_step by assumption. rewrite Hfix. apply IH.
Qed.

(** The chunks are the stripped slices of the recorded bounds. *)
Lemma while_ranges_chunks (text : str) (chunk_size overlap : Z) :
  forall fuel start ranges,
    while_loop fuel text chunk_size overlap start (map (chunk_of text) ranges) =
    option_map (map (chunk_of text))
      (while_ranges fuel text chunk_size overlap start ranges).
Proof.
  induction fuel as [|fuel IH]; intros start ranges; simpl;
    destruct (start <? len text); try reflexivity.
  rewrite <- IH. f_equal. unfold append_chunk.
  destruct (truthy _); [|reflexivity].
  now rewrite map_app.
Qed.

Lemma while_loop_Forall (P : str -> Prop) (text : str) (chunk_size overlap : Z) :
  (forall a b, truthy (strip (slice text a b)) = true ->
               P (strip (slice text a b))) ->
  forall fuel start chunks result,
    Forall P chunks ->
    while_loop fuel text chunk_size overlap start chunks = Some result ->
    Forall P result.
Proof.
  intros HP. induction fuel as [|fuel IH]; intros start chunks result Hall; simpl;
    destruct (start <? len text); try congruence.
  apply IH. unfold append_chunk.
  destruct (truthy _) eqn:Ht; [|assumption].
  apply Forall_app. split; [assumption|]. constructor; [|constructor].
  now apply HP.
Qed.
End ChunkerFacts.

(** *** Texts without a space: every cut is a hard cut

    On this path the loop advances by [chunk_size - overlap] per
    iteration and ends within [ceil(len(text) / (chunk_size - overlap))]
    iterations. *)

Lemma rfind_absent (text : str) (c : char) (a b : Z) :
  ~ In c text -> rfind text c a b = -1.
Proof.
  intros Hnot. unfold rfind.
  destruct (rfind_scan_spec c text 0 (adjust_index (len text) a)
              (adjust_index (len text) b) (-1))
    as [[Hr _] | (k & _ & _ & Hk & _)]; [assumption|].
  exfalso. apply Hnot. eapply nth_error_In. eassumption.
Qed.

Lemma window_end_hard_cut (text : str) (chunk_size start : Z) :
  ~ In space text -> 0 <= start ->
  Chunker.window_end text chunk_size start = start + chunk_size.
Proof.
  intros Hnot Hs. unfold Chunker.window_end.
  destruct (start + chunk_size <? len text); [|reflexivity].
  rewrite rfind_absent by assumption.
  destruct (Z.gtb_spec (-1) start); [lia|reflexivity].
Qed.

Lemma while_loop_done (fuel : nat) (text : str) (chunk_size overlap start : Z)
    (chunks : list str) :
  len text <= start ->
  Chunker.while_loop fuel text chunk_size overlap start chunks = Some chunks.
Proof.
  intros H. destruct fuel; simpl;
    destruct (Z.ltb_spec start (len text)); try reflexivity; lia.
Qed.

Lemma while_loop_hard_cuts (text : str) (chunk_size overlap : Z) :
  ~ In space text -> 0 <= overlap < chunk_size ->
  forall fuel start chunks,
    0 <= start ->
    len text - start <= Z.of_nat fuel * (chunk_size - overlap) ->
    exists result,
      Chunker.while_loop fuel text chunk_size overlap start chunks = Some result.
Proof.
  intros Hnot Hparams. induction fuel as [|fuel IH]; intros start chunks Hs Hfuel.
  - rewrite while_loop_done by lia. eauto.
  - destruct (Z.lt_ge_cases start (len text)) as [Hlt|Hge];
      [|rewrite while_loop_done by lia; eauto].
    rewrite while_loop_step by assumption.
    rewrite window_end_hard_cut by assumption.
    unfold Chunker.next_start.
    destruct (Z.ltb_spec (start + chunk_size) (len text)).
    + apply IH; [lia|]. rewrite Nat2Z.inj_succ, Z.mul_succ_l in Hfuel. lia.
    + rewrite while_loop_done by lia. eauto.
Qed.

(** The chunking of a text without a space returns within
    [ceil(len(text) / (chunk_size - overlap))] iterations. *)
Lemma split_text_into_chunks_hard_cuts_terminate (fuel : nat) (text : str)
    (chunk_size overlap : Z) :
  ~ In space text -> 0 <= overlap < chunk_size ->
  len text <= Z.of_nat fuel * (chunk_size - overlap) ->
  exists chunks,
    Chunker._split_text_into_chunks fuel text chunk_size overlap = Some chunks.
Proof.
  intros Hnot Hparams Hfuel. unfold Chunker._split_text_into_chunks.
  destruct (len text <=? chunk_size); [eauto|].
  apply while_loop_hard_cuts; try assumption; lia.
Qed.

(** C1, termination of the chunker.  The property fails on the code: when
    the last space of a window lies at most [overlap] characters after the
    window's start, the next window does not start later than this one.
    With [chunk_size = 10] and [overlap = 3] the text
    ["abc defghijklmnopqrstuvwxyz"] is cut at its space, at index 3, and
    the next window starts at [3 - 3 = 0] again: no number of iterations
    ends the loop.  The same happens with the values the node passes,
    [chunk_size = 1000] and [overlap = 200], on 200 letters, a space and
    1000 letters. *)
Theorem split_text_into_chunks_diverges :
  (0 < 3 < 10 /\
   forall fuel,
     Chunker._split_text_into_chunks fuel (py "abc defghijklmnopqrstuvwxyz") 10 3 = None) /\
  (0 < 200 < 1000 /\
   forall fuel,
     Chunker._split_text_into_chunks fuel
       (letters "a" 200 ++ py " " ++ letters "b" 1000) 1000 200 = None).
Proof.
  split; (split; [lia|]); intros fuel; unfold Chunker._split_text_into_chunks.
  - set (text := py _).
    assert (E : (len text <=? 10) = false) by (vm_compute; reflexivity).
    rewrite E. apply while_loop_stuck; vm_compute; reflexivity.
  - set (text := _ ++ _).
    assert (E : (len text <=? 1000) = false) by (vm_compute; reflexivity).
    rewrite E. apply while_loop_stuck; vm_compute; reflexivity.
Qed.

(** C2, coverage of the text by the chunks.  The property fails on the
    code: when the last space of a window lies less than [overlap]
    characters after the window's start, the next start is negative, the
    slice taken from it is empty, and the window after that starts at
    [start + chunk_size - overlap].  With [chunk_size = 10] and
    [overlap = 3] the text ["ab cdefghijklmnop"] yields the chunks ["ab"],
    ["fghijklmno"] and ["mnop"], sliced with the bounds [(0, 2)],
    [(6, 16)] and [(13, 23)]: position 3, the letter [c], is in none of
    them, and no chunk contains a [c].  With [chunk_size = 1000] and
    [overlap = 200], 199 letters, a space and 1000 letters yield two
    chunks that leave the positions from 199 up to 799 out. *)
Theorem split_text_into_chunks_leaves_a_gap :
  (0 < 3 < 10 /\
   Chunker._split_text_into_chunks 4 (py "ab cdefghijklmnop") 10 3 =
     Some [py "ab"; py "fghijklmno"; py "mnop"] /\
   Chunker.chunk_ranges 4 (py "ab cdefghijklmnop") 10 3 =
     Some [(0, 2); (6, 16); (13, 23)] /\
   char_at (py "ab cdefghijklmnop") 3 = Some (N_of_ascii "c") /\
   covered (len (py "ab cdefghijklmnop")) [(0, 2); (6, 16); (13, 23)] 3 = false /\
   forallb (fun chunk => negb (existsb (N.eqb (N_of_ascii "c")) chunk))
     [py "ab"; py "fghijklmno"; py "mnop"] = true) /\
  (0 < 200 < 1000 /\
   Chunker._split_text_into_chunks 3
     (letters "a" 199 ++ py " " ++ letters "b" 1000) 1000 200 =
     Some [letters "a" 199; letters "b" 401] /\
   Chunker.chunk_ranges 3
     (letters "a" 199 ++ py " " ++ letters "b" 1000) 1000 200 =
     Some [(0, 199); (799, 1799)] /\
   forall i, 199 <= i < 799 ->
     covered (len (letters "a" 199 ++ py " " ++ letters "b" 1000))
       [(0, 199); (799, 1799)] i = false).
Proof.
  split.
  - repeat split; try lia; vm_compute; reflexivity.
  - split; [lia|]. split; [vm_compute; reflexivity|].
    split; [vm_compute; reflexivity|].
    intros i Hi.
    assert (E : len (letters "a" 199 ++ py " " ++ letters "b" 1000) = 1200)
      by (vm_compute; reflexivity).
    rewrite E. unfold covered, Chunker.covers, adjust_index. simpl.
    destruct (Z.leb_spec 0 i), (Z.ltb_spec i 199), (Z.leb_spec 799 i),
      (Z.ltb_spec i 1200); simpl; try reflexivity; lia.
Qed.

(** C6, against the claim as it is stated: the empty text is returned as
    the one chunk, and that chunk is empty. *)
Lemma split_text_into_chunks_empty_chunk :
  ~ (forall fuel chunks,
       Chunker._split_text_into_chunks fuel (py "") 1000 200 = Some chunks ->
       Forall (fun chunk => chunk <> [] /\ substring chunk (py "")) chunks).
Proof.
  intros H. specialize (H 0%nat [[]] eq_refl).
  inversion H as [|? ? [Hne _] ?]. now apply Hne.
Qed.

(** C6, as amended: every chunk returned is a substring of the text, and
    it is not empty when the text is not empty; for the empty text and
    [0 <= chunk_size], the one chunk returned is the empty string. *)
Theorem split_text_into_chunks_nonempty_substrings
    (fuel : nat) (text : str) (chunk_size overlap : Z) (chunks : list str) :
  Chunker._split_text_into_chunks fuel text chunk_size overlap = Some chunks ->
  Forall (fun chunk => substring chunk text /\ (text <> [] -> chunk <> [])) chunks /\
  (text = [] -> 0 <= chunk_size -> chunks = [[]]).
Proof.
  unfold Chunker._split_text_into_chunks.
  destruct (Z.leb_spec (len text) chunk_size) as [Hshort|Hlong].
  - intros [= <-]. split.
    + constructor; [|constructor]. split; [apply substring_refl|auto].
    + intros -> _. reflexivity.
  - intros Hloop. split.
    + revert Hloop. apply while_loop_Forall; [|constructor].
      intros a b Ht. split; [|intros _; now apply truthy_nonempty].
      eapply substring_trans; [apply strip_substring|apply slice_substring].
    + intros -> Hsize. unfold len in Hlong. simpl in Hlong. lia.
Qed.

Lemma split_text_into_chunks_nonempty_substrings_witness :
  Forall (fun chunk => substring chunk (py "the quick brown fox jumps over") /\
                       (py "the quick brown fox jumps over" <> [] -> chunk <> []))
    [py "the quick"; py "ick brown"; py "own fox"; py "fox jumps"; py "mps over"].
Proof.
  apply (split_text_into_chunks_nonempty_substrings 5
           (py "the quick brown fox jumps over") 10 3).
  vm_compute. reflexivity.
Defined.

(** C7, against the claim as it is stated: the window [[0, 10)] of
    [" abcdefghijklmno"] does not reach the end of the text and holds a
    space, at index 0, and the chunk is cut at index 10, after the [i]. *)
Lemma window_end_ignores_space_at_start :
  ~ ends_at_a_space_of_the_window (py " abcdefghijklmno") 10 0.
Proof.
  unfold ends_at_a_space_of_the_window. intros H.
  assert (E : char_at (py " abcdefghijklmno")
                (Chunker.window_end (py " abcdefghijklmno") 10 0) = Some space).
  { apply H; [vm_compute; reflexivity|].
    exists 0. split; [lia|]. vm_compute. reflexivity. }
  vm_compute in E. discriminate E.
Qed.

(** C7, as amended: for a window that starts inside the text, at
    [0 <= start], and does not reach the end of the text, the chunk ends at
    the last space lying strictly after [start] in the window when there is
    one, and at [start + chunk_size] when there is none. *)
Theorem window_end_word_boundary (text : str) (chunk_size start : Z) :
  0 <= start -> 0 < chunk_size -> start + chunk_size < len text ->
  ((exists p, start < p < start + chunk_size /\ char_at text p = Some space) ->
   last_space_in text start (start + chunk_size)
     (Chunker.window_end text chunk_size start)) /\
  ((forall p, start < p < start + chunk_size -> char_at text p <> Some space) ->
   Chunker.window_end text chunk_size start = start + chunk_size).
Proof.
  intros Hs Hc Hlen. unfold Chunker.window_end, last_space_in.
  destruct (Z.ltb_spec (start + chunk_size) (len text)); [|lia].
  destruct (rfind_spec text space start (start + chunk_size))
    as [[Hr Hno] | (Hin & Hsp & Hlast)]; try lia.
  - rewrite Hr. destruct (Z.gtb_spec (-1) start); [lia|]. split.
    + intros (p & Hp & Hsp). exfalso. apply (Hno p); [lia|assumption].
    + reflexivity.
  - destruct (Z.gtb_spec (rfind text space start (start + chunk_size)) start).
    + split.
      * intros _. repeat split; try lia; assumption.
      * intros Hno. exfalso.
        apply (Hno (rfind text space start (start + chunk_size))); [lia|assumption].
    + split.
      * intros (p & Hp & Hsp'). exfalso. apply (Hlast p); [lia|assumption].
      * reflexivity.
Qed.

Lemma window_end_word_boundary_witness :
  last_space_in (py "the quick brown fox jumps over") 0 10
    (Chunker.window_end (py "the quick brown fox jumps over") 10 0) /\
  Chunker.window_end (py "the quick brown fox jumps over") 10 0 = 9.
Proof.
  split; [|vm_compute; reflexivity].
  apply (window_end_word_boundary (py "the quick brown fox jumps over") 10 0).
  - lia.
  - lia.
  - vm_compute. reflexivity.
  - exists 3. split; [lia|]. vm_compute. reflexivity.
Defined.

(** ** The monad of a node *)

Section MonadFacts.
Context {W L : Type}.

Lemma world_only_total {A} (m : M W L A) : world_only m -> total m.
Proof. intros H s. destruct (H s) as (w' & r & E). eauto. Qed.

Lemma world_only_ret {A} (a : A) : world_only (@ret W L A a).
Proof. intros [w l]. now exists w, (Ok a). Qed.

Lemma world_only_call {A} (op : W -> W * result A) : world_only (@call W L A op).
Proof. intros [w l]. unfold call. simpl. destruct (op w) as [w' r]. eauto. Qed.

Lemma world_only_ask {A} (op : W -> W * A) : world_only (@ask W L A op).
Proof. intros [w l]. unfold ask. simpl. destruct (op w) as [w' a]. eauto. Qed.

Lemma world_only_bind {A B} (m : M W L A) (k : A -> M W L B) :
  world_only m -> (forall a, world_only (k a)) -> world_only (bind m k).
Proof.
  intros Hm Hk s. unfold bind.
  destruct (Hm s) as (w' & [a|e] & ->).
  - destruct (Hk a (w', snd s)) as (w'' & r & ->). eauto.
  - eauto.
Qed.

Lemma total_ret {A} (a : A) : total (@ret W L A a).
Proof. intros s. unfold ret. eauto. Qed.

Lemma total_raise {A} (e : exn) : total (@raise W L A e).
Proof. intros s. unfold raise. eauto. Qed.

Lemma total_call {A} (op : W -> W * result A) : total (@call W L A op).
Proof. apply world_only_total, world_only_call. Qed.

Lemma total_ask {A} (op : W -> W * A) : total (@ask W L A op).
Proof. apply world_only_total, world_only_ask. Qed.

Lemma total_of_result {A} (r : result A) : total (@of_result W L A r).
Proof. intros s. unfold of_result. eauto. Qed.

Lemma total_modify (f : L -> L) : total (@modify W L f).
Proof. intros s. unfold modify. eauto. Qed.

Lemma total_get_locals : total (@get_locals W L).
Proof. intros s. unfold get_locals. eauto. Qed.

Lemma total_bind {A B} (m : M W L A) (k : A -> M W L B) :
  total m -> (forall a, total (k a)) -> total (bind m k).
Proof.
  intros Hm Hk s. unfold bind.
  destruct (Hm s) as (s' & [a|e] & ->); [apply Hk|eauto].
Qed.

Lemma total_try_except {A} (body : M W L A) (handler : exn -> M W L A) :
  total body -> (forall e, total (handler e)) -> total (try_except body handler).
Proof.
  intros Hb Hh s. unfold try_except.
  destruct (Hb s) as (s' & [a|e] & ->); [eauto|apply Hh].
Qed.

Lemma total_with_as {R A} (enter : M W L R) (exit : R -> M W L unit)
    (body : R -> M W L A) :
  total enter -> (forall x, total (exit x)) -> (forall x, total (body x)) ->
  total (with_as enter exit body).
Proof.
  intros He Hx Hb. unfold with_as. apply total_bind; [assumption|].
  intros x s. destruct (Hb x s) as (s' & [a|e] & ->).
  - apply total_bind; [apply Hx|intros; apply total_ret].
  - apply total_bind; [apply Hx|intros; apply total_raise].
Qed.

(** A loop whose body always returns runs to its end and returns. *)
Lemma for_each_returns {A} (body : A -> M W L unit) (l : list A) :
  (forall x s, In x l -> exists s', body x s = Some (s', Ok tt)) ->
  forall s, exists s', for_each body l s = Some (s', Ok tt).
Proof.
  induction l as [|x l IH]; intros Hb s; simpl.
  - unfold ret. eauto.
  - unfold bind. destruct (Hb x s (or_introl eq_refl)) as (s' & ->).
    apply IH. intros y s0 Hy. apply Hb. now right.
Qed.

(** The same, with a property of the state that every iteration keeps. *)
Lemma for_each_invariant {A} (P : W * L -> Prop) (body : A -> M W L unit)
    (l : list A) :
  (forall x s, In x l -> P s -> exists s', body x s = Some (s', Ok tt) /\ P s') ->
  forall s, P s -> exists s', for_each body l s = Some (s', Ok tt) /\ P s'.
Proof.
  induction l as [|x l IH]; intros Hb s Hs; simpl.
  - unfold ret. eauto.
  - unfold bind. destruct (Hb x s (or_introl eq_refl) Hs) as (s' & -> & Hs').
    apply IH; [|assumption]. intros y s0 Hy. apply Hb. now right.
Qed.
End MonadFacts.

Create HintDb node.
#[local] Hint Resolve total_ret total_raise total_call total_ask total_of_result
  total_modify total_get_locals : node.

(** ** The extract node *)

Section ExtractFacts.
Import Extract.
Context {W : Type} {E : Env W}.

Lemma try_body_total (bucket_name pdf_key : str) :
  total (try_body bucket_name pdf_key).
Proof.
  unfold try_body, with_body, store_text, record_success.
  repeat first
    [ progress auto with node
    | apply total_with_as; [| intros | intros]
    | apply total_bind; [|intros] ].
Qed.

(** The [try] body either raises before it has touched the index, or
    records the conversion and then returns or raises. *)
Lemma try_body_cases (bucket_name pdf_key : str) (w : W) (l : locals) :
  exists w' l' r,
    try_body bucket_name pdf_key (w, l) = Some ((w', l'), r) /\
    ((l' = l /\ exists e, r = Raise e) \/
     (exists text_content, l' = converted pdf_key text_content l)).
Proof.
  unfold try_body, with_as, with_body, store_text, record_success, converted.
  unfold bind, call, of_result, modify, ret, raise. cbn [fst snd].
  repeat match goal with
  | |- context [let (_, _) := ?x in _] => destruct x as [? [?|?]]; cbn [fst snd]
  | |- context [match encode_utf8 ?x with _ => _ end] =>
      destruct (encode_utf8 x); cbn [fst snd]
  end;
  do 3 eexists; (split; [reflexivity|]);
  first [ left; split; [reflexivity|eexists; reflexivity]
        | right; eexists; reflexivity ].
Qed.

(** One iteration returns, whatever the collaborators do, and counts the
    item as processed. *)
Lemma convert_one_returns (bucket_name pdf_key : str) (s : W * locals) :
  exists s',
    convert_one bucket_name pdf_key s = Some (s', Ok tt) /\
    total_processed (converted_index (snd s')) =
      total_processed (converted_index (snd s)) + 1.
Proof.
  destruct s as [w l]. unfold convert_one, bind at 1, try_except.
  destruct (try_body_cases bucket_name pdf_key w l)
    as (w' & l' & r & -> & Hcases).
  destruct r as [[]|e]; unfold record_failure, count_processed, modify;
    cbn [fst snd]; eexists; (split; [reflexivity|]); cbn [fst snd];
    destruct Hcases as [[-> _] | [text_content ->]]; reflexivity.
Qed.

(** What an iteration whose [try] body raises comes to. *)
Lemma convert_one_raise (bucket_name pdf_key : str) (s s1 : W * locals) (e : exn) :
  try_body bucket_name pdf_key s = Some (s1, Raise e) ->
  convert_one bucket_name pdf_key s =
    Some ((fst s1,
           on_index index_processed (on_index (index_failure pdf_key e) (snd s1))),
          Ok tt).
Proof.
  intros H. unfold convert_one, bind, try_except. rewrite H. reflexivity.
Qed.

Lemma convert_loop_returns (bucket_name : str) (pdf_files : list str) :
  forall s, exists s',
    convert_loop bucket_name pdf_files s = Some (s', Ok tt) /\
    total_processed (converted_index (snd s')) =
      total_processed (converted_index (snd s)) + len pdf_files.
Proof.
  unfold convert_loop.
  induction pdf_files as [|pdf_key rest IH]; intros s; cbn [for_each].
  - exists s. split; [reflexivity|]. unfold len; simpl; lia.
  - unfold bind.
    destruct (convert_one_returns bucket_name pdf_key s) as (s1 & -> & H1).
    destruct (IH s1) as (s2 & -> & H2).
    exists s2. split; [reflexivity|].
    rewrite H2, H1. unfold len. cbn [List.length]. lia.
Qed.

End ExtractFacts.

(** ** Dictionaries *)

Lemma str_eqb_refl (k : str) : str_eqb k k = true.
Proof. unfold str_eqb. destruct (list_eq_dec N.eq_dec k k); congruence. Qed.

Lemma dict_get_set {V} (d : dict V) (k : str) (v : V) :
  dict_get (dict_set d k v) k = Some v.
Proof.
  induction d as [|[k' v'] d IH]; simpl.
  - now rewrite str_eqb_refl.
  - destruct (str_eqb k' k) eqn:Hk; simpl.
    + now rewrite str_eqb_refl.
    + now rewrite Hk.
Qed.

Lemma dict_set_set {V} (d : dict V) (k : str) (v1 v2 : V) :
  dict_set (dict_set d k v1) k v2 = dict_set d k v2.
Proof.
  induction d as [|[k' v'] d IH]; simpl.
  - now rewrite str_eqb_refl.
  - destruct (str_eqb k' k) eqn:Hk; simpl.
    + now rewrite str_eqb_refl.
    + now rewrite Hk, IH.
Qed.

(** ** The embedding node *)

Section EmbeddingFacts.
Import Embedding.
Context {W : Type} {E : Env W}.

Lemma build_points_world_only (name : str) (total : Z) (chunks : list str) :
  forall i points, world_only (build_points name total i chunks points).
Proof.
  induction chunks as [|chunk rest IH]; intros i points; cbn [build_points].
  - apply world_only_ret.
  - apply world_only_bind; [apply world_only_call|]. intros embedding.
    apply world_only_bind; [apply world_only_ask|]. intros point_id.
    apply world_only_bind; [apply world_only_ask|]. intros now.
    apply IH.
Qed.

Lemma details_with_detail (name : str) (d : collection_detail) (c : collections_used) :
  collection_details (with_detail name d c) =
  dict_set (collection_details c) name d.
Proof. reflexivity. Qed.

Lemma with_detail_twice (name : str) (d1 d2 : collection_detail) (c : collections_used) :
  with_detail name d2 (with_detail name d1 c) = with_detail name d2 c.
Proof. unfold with_detail. simpl. now rewrite dict_set_set. Qed.

(** One iteration, for a document whose chunking returns: the document
    is recorded as processed in both reports, or as failed in the
    embedding report, and the iteration returns.  When the chunking does
    not return, neither does the iteration. *)
Lemma embed_one_cases (fuel : nat) (item : str * str) (w : W) (l : locals)
    (d : collection_detail) :
  dict_get (collection_details (snd l)) collection_name = Some d ->
  match Chunker._split_text_into_chunks fuel (snd item) 1000 200 with
  | None => embed_one fuel item (w, l) = None
  | Some chunks =>
      exists w',
        embed_one fuel item (w, l) =
          Some ((w', (report_success (fst item) chunks (fst l),
                      with_detail collection_name
                        (add_vectors (len chunks) (add_document d)) (snd l))),
                Ok tt) \/
        exists e,
          embed_one fuel item (w, l) =
            Some ((w', (report_failure (fst item) e (fst l), snd l)), Ok tt)
  end.
Proof.
  intros Hd.
  remember (embed_one fuel item (w, l)) as out eqn:Hout.
  unfold embed_one, try_except, try_body in Hout.
  unfold bind at 1, of_option at 1 in Hout.
  destruct (Chunker._split_text_into_chunks fuel (snd item) 1000 200)
    as [chunks|]; [|assumption].
  unfold bind at 1 in Hout.
  destruct (build_points_world_only (fst item) (len chunks) chunks 0 [] (w, l))
    as (w1 & r1 & Hpoints).
  rewrite Hpoints in Hout. cbn [snd] in Hout.
  destruct r1 as [points|e].
  2:{ exists w1. right. exists e. exact Hout. }
  unfold bind at 1, call at 1 in Hout. cbn [fst snd] in Hout.
  destruct (upsert collection_name points w1) as [w2 [[]|e]].
  2:{ exists w2. right. exists e. exact Hout. }
  exists w2. left.
  unfold record_success, update_detail, bind, modify, get_locals in Hout.
  cbn [fst snd] in Hout.
  rewrite Hd in Hout. cbn [fst snd] in Hout.
  rewrite details_with_detail, dict_get_set in Hout. cbn [fst snd] in Hout.
  now rewrite with_detail_twice in Hout.
Qed.
End EmbeddingFacts.

Section EmbeddingLoop.
Import Embedding.
Context {W : Type} {E : Env W}.

Lemma update_detail_total (name : str) (f : collection_detail -> collection_detail) :
  total (update_detail (W := W) name f).
Proof.
  unfold update_detail. apply total_bind; [auto with node|].
  intros l. destruct (dict_get _ _); auto with node.
Qed.

(** An iteration returns as soon as the chunking of its document does. *)
Lemma embed_one_returns (fuel : nat) (item : str * str) (s : W * locals) :
  chunking_returns fuel item ->
  exists s', embed_one fuel item s = Some (s', Ok tt).
Proof.
  unfold chunking_returns. intros Hsplit.
  assert (Hbody : exists s1 r, try_body fuel (fst item) (snd item) s = Some (s1, r)).
  { unfold try_body.
    destruct (Chunker._split_text_into_chunks fuel (snd item) 1000 200)
      as [chunks|]; [|congruence].
    apply total_bind; [intros s0; unfold of_option; eauto|]. intros chunks'.
    apply total_bind; [apply world_only_total, build_points_world_only|].
    intros points.
    apply total_bind; [auto with node|]. intros _.
    apply total_bind; [unfold record_success; auto with node|]. intros _.
    apply total_bind; [apply update_detail_total|]. intros _.
    apply update_detail_total. }
  destruct Hbody as (s1 & r & Hbody).
  unfold embed_one, try_except. rewrite Hbody.
  destruct r as [[]|e]; [eauto|].
  unfold record_failure, modify. eauto.
Qed.

(** No iteration raises, and no run of the loop does. *)
Lemma embed_one_never_raises (fuel : nat) (item : str * str) (s s' : W * locals)
    (r : result unit) :
  embed_one fuel item s = Some (s', r) -> r = Ok tt.
Proof.
  unfold embed_one, try_except.
  destruct (try_body fuel (fst item) (snd item) s) as [[s1 [[]|e]]|];
    [congruence| |discriminate].
  unfold record_failure, modify. congruence.
Qed.

Lemma embed_loop_never_raises (fuel : nat) (texts_partitioned : dict str) :
  forall (s s' : W * locals) (r : result unit),
    embed_loop fuel texts_partitioned s = Some (s', r) -> r = Ok tt.
Proof.
  unfold embed_loop.
  induction texts_partitioned as [|item rest IH]; intros s s' r; cbn [for_each].
  - unfold ret. congruence.
  - unfold bind.
    destruct (embed_one fuel item s) as [[s1 r1]|] eqn:H1; [|discriminate].
    apply embed_one_never_raises in H1. subst r1. apply IH.
Qed.

(** What an iteration whose [try] body raises comes to. *)
Lemma embed_one_raise (fuel : nat) (item : str * str) (s s1 : W * locals) (e : exn) :
  try_body fuel (fst item) (snd item) s = Some (s1, Raise e) ->
  embed_one fuel item s =
    Some ((fst s1, (report_failure (fst item) e (fst (snd s1)), snd (snd s1))),
          Ok tt).
Proof.
  intros H. unfold embed_one, try_except. rewrite H. reflexivity.
Qed.

Lemma embed_loop_returns (fuel : nat) (texts_partitioned : dict str) (s : W * locals) :
  Forall (chunking_returns fuel) texts_partitioned ->
  exists s', embed_loop fuel texts_partitioned s = Some (s', Ok tt).
Proof.
  intros Hall. apply for_each_returns.
  intros item s0 Hin. apply embed_one_returns.
  rewrite Forall_forall in Hall. now apply Hall.
Qed.

(** Every iteration keeps the two reports in agreement. *)
Lemma embed_one_agree (fuel : nat) (item : str * str) (s : W * locals) :
  chunking_returns fuel item -> reports_agree (snd s) ->
  exists s', embed_one fuel item s = Some (s', Ok tt) /\ reports_agree (snd s').
Proof.
  destruct s as [w l]. unfold chunking_returns. intros Hsplit (d & Hd & Hdocs & Hvecs).
  pose proof (embed_one_cases fuel item w l d Hd) as Hcases.
  destruct (Chunker._split_text_into_chunks fuel (snd item) 1000 200)
    as [chunks|]; [|congruence].
  destruct Hcases as (w' & [-> | (e & ->)]); eexists; (split; [reflexivity|]);
    cbn [snd]; unfold reports_agree; cbn [fst snd].
  - exists (add_vectors (len chunks) (add_document d)).
    rewrite details_with_detail, dict_get_set.
    split; [reflexivity|]. cbn. rewrite len_app, Hdocs, Hvecs.
    split; reflexivity.
  - exists d. cbn. auto.
Qed.

Lemma initial_reports_agree (texts_partitioned : dict str) (w : W) :
  exists w0 l0,
    initial_reports texts_partitioned (w, tt) = Some ((w0, tt), Ok l0) /\
    reports_agree l0.
Proof.
  unfold initial_reports, bind, ask, ret. cbn [fst snd].
  destruct (now_isoformat w) as [w1 t1]. cbn [fst snd].
  destruct (now_isoformat w1) as [w2 t2].
  eexists; eexists; split; [reflexivity|].
  unfold reports_agree. cbn [fst snd collection_details dict_get].
  rewrite str_eqb_refl. eexists; split; [reflexivity|]. split; reflexivity.
Qed.
(** A property of the two reports that both outcomes of an iteration keep
    holds after every run of the loop that returns. *)
Lemma embed_loop_preserves (P : locals -> Prop) (fuel : nat) :
  (forall l, P l ->
     exists d, dict_get (collection_details (snd l)) collection_name = Some d) ->
  (forall l d name chunks,
     P l -> dict_get (collection_details (snd l)) collection_name = Some d ->
     P (report_success name chunks (fst l),
        with_detail collection_name
          (add_vectors (len chunks) (add_document d)) (snd l))) ->
  (forall l name e, P l -> P (report_failure name e (fst l), snd l)) ->
  forall texts_partitioned (s s' : W * locals) r,
    P (snd s) ->
    embed_loop fuel texts_partitioned s = Some (s', r) ->
    P (snd s') /\ r = Ok tt.
Proof.
  intros Hdetail Hsuccess Hfailure. unfold embed_loop.
  induction texts_partitioned as [|item rest IH]; intros s s' r Hs; cbn [for_each].
  - unfold ret. intros [= <- <-]. auto.
  - unfold bind. destruct s as [w l]. cbn [snd] in Hs.
    destruct (Hdetail l Hs) as [d Hd].
    pose proof (embed_one_cases fuel item w l d Hd) as Hcases.
    destruct (Chunker._split_text_into_chunks fuel (snd item) 1000 200)
      as [chunks|]; [|rewrite Hcases; discriminate].
    destruct Hcases as (w1 & [-> | (e & ->)]); apply IH; cbn [snd]; auto.
Qed.

(** When the node returns, its reports are those of the loop run over all
    the documents from the initial reports. *)
Lemma node_returns_through_loop (fuel : nat) (texts_partitioned : dict str)
    (index : Extract.conversion_index) (w : W) (s' : W * unit) (l : locals) :
  generate_embeddings_and_upsert fuel texts_partitioned index (w, tt)
    = Some (s', Ok l) ->
  exists w1 w0 l0 w',
    initial_reports texts_partitioned (w1, tt) = Some ((w0, tt), Ok l0) /\
    embed_loop fuel texts_partitioned (w0, l0) = Some ((w', l), Ok tt).
Proof.
  unfold generate_embeddings_and_upsert.
  unfold bind at 1, call at 1. cbn [fst snd].
  destruct (QdrantClient w) as [w1 [[]|e]]; [|discriminate].
  unfold bind at 1, call at 1. cbn [fst snd].
  destruct (TextEmbedding _ w1) as [w2 [[]|e]]; [|discriminate].
  unfold bind at 1.
  destruct (ensure_collection (w2, tt)) as [[[w3 []] [[]|e]]|]; try discriminate.
  unfold bind at 1.
  destruct (initial_reports_agree texts_partitioned w3) as (w0 & l0 & H0 & _).
  rewrite H0. unfold bind, block, ret. cbn [fst snd].
  destruct (embed_loop fuel texts_partitioned (w0, l0))
    as [[[w' l'] [[]|e]]|] eqn:Hloop; try discriminate.
  intros [= _ <-]. exists w3, w0, l0, w'. auto.
Qed.

(** The totals of the reports that the node returns are counts. *)
Lemma node_totals_are_counts (fuel : nat) (texts_partitioned : dict str)
    (index : Extract.conversion_index) (w : W) (s' : W * unit) (l : locals) :
  generate_embeddings_and_upsert fuel texts_partitioned index (w, tt)
    = Some (s', Ok l) ->
  0 <= total_vectors_created (fst l) /\ 0 <= total_vectors_failed (fst l).
Proof.
  intros Hnode.
  destruct (node_returns_through_loop _ _ _ _ _ _ Hnode)
    as (w1 & w0 & l0 & w' & H0 & Hloop).
  pose (P := fun l : locals =>
    (exists d, dict_get (collection_details (snd l)) collection_name = Some d) /\
    0 <= total_vectors_created (fst l) /\ 0 <= total_vectors_failed (fst l)).
  assert (HP : P l0).
  { revert H0. unfold initial_reports, bind, ask, ret. cbn [fst snd].
    destruct (now_isoformat w1) as [w2 t1]. cbn [fst snd].
    destruct (now_isoformat w2) as [w3 t2].
    intros [= _ <-]. unfold P. cbn [fst snd collection_details dict_get].
    rewrite str_eqb_refl. split; [eauto|]. cbn. lia. }
  destruct (embed_loop_preserves P fuel) with (4 := HP) (5 := Hloop) as [[_ H] _].
  - intros l1 [H1 _]. exact H1.
  - intros l1 d name chunks (_ & Hc & Hf) _. unfold P. cbn [fst snd].
    rewrite details_with_detail, dict_get_set. split; [eauto|].
    cbn. pose proof (Zle_0_nat (List.length chunks)). unfold len. lia.
  - intros l1 name e (Hd & Hc & Hf). unfold P. cbn [fst snd].
    split; [assumption|]. cbn. lia.
  - exact H.
Qed.
End EmbeddingLoop.

(** C10, agreement of the two reports.  From the reports that the node
    creates, the loop run over any prefix [done] of the documents (every
    document of which is chunked in finitely many iterations) returns, and
    in the state it reaches [documents_added] of the collection is the
    number of processed documents and [vectors_added] is
    [total_vectors_created]; and whenever the node returns its two
    reports, they agree in the same way. *)
Theorem reports_agree_after_every_iteration {W : Type} {E : Embedding.Env W}
    (fuel : nat) (done rest : dict str) (index : Extract.conversion_index) (w : W) :
  Forall (chunking_returns fuel) done ->
  (exists w0 l0 w' l',
     Embedding.initial_reports (done ++ rest) (w, tt) = Some ((w0, tt), Ok l0) /\
     Embedding.embed_loop fuel done (w0, l0) = Some ((w', l'), Ok tt) /\
     reports_agree l') /\
  (forall s' l,
     Embedding.generate_embeddings_and_upsert fuel (done ++ rest) index (w, tt)
       = Some (s', Ok l) ->
     reports_agree l).
Proof.
  intros Hdone. split.
  - destruct (initial_reports_agree (done ++ rest) w) as (w0 & l0 & H0 & Hagree).
    destruct (for_each_invariant (fun s => reports_agree (snd s))
                (Embedding.embed_one fuel) done) with (s := (w0, l0))
      as ([w' l'] & Hloop & Hagree'); [|assumption|].
    + intros item s Hin Hs. apply embed_one_agree; [|assumption].
      rewrite Forall_forall in Hdone. now apply Hdone.
    + exists w0, l0, w', l'. auto.
  - intros s' l Hnode.
    destruct (node_returns_through_loop _ _ _ _ _ _ Hnode)
      as (w1 & w0 & l0 & w' & H0 & Hloop).
    destruct (initial_reports_agree (done ++ rest) w1) as (w2 & l2 & H2 & Hagree).
    rewrite H0 in H2. injection H2 as <- <-.
    destruct (embed_loop_preserves reports_agree fuel)
      with (4 := Hagree) (5 := Hloop) as [H _]; [| | |exact H].
    + intros l1 (d & Hd & _). eauto.
    + intros l1 d name chunks (d' & Hd' & Hdocs & Hvecs) Hd.
      rewrite Hd in Hd'. injection Hd' as <-.
      exists (Embedding.add_vectors (len chunks) (Embedding.add_document d)).
      cbn [fst snd]. rewrite details_with_detail, dict_get_set.
      split; [reflexivity|]. cbn. rewrite len_app, Hdocs, Hvecs.
      split; reflexivity.
    + intros l1 name e (d & Hd & Hdocs & Hvecs). exists d. cbn. auto.
Qed.

Lemma reports_agree_after_every_iteration_witness :
  exists w0 l0 w' l',
    Embedding.initial_reports (E := Qdrant.client true)
      ([(py "a", py "hello world")] ++ [(py "b", py "")]) (Qdrant.ready, tt)
      = Some ((w0, tt), Ok l0) /\
    Embedding.embed_loop (E := Qdrant.client true) 0
      [(py "a", py "hello world")] (w0, l0) = Some ((w', l'), Ok tt) /\
    reports_agree l'.
Proof.
  apply (reports_agree_after_every_iteration (E := Qdrant.client true) 0
           [(py "a", py "hello world")] [(py "b", py "")]
           (Extract.converted_index Extract.initial_locals) Qdrant.ready).
  constructor; [|constructor]. vm_compute. discriminate.
Defined.

(** Errors of single items, loop by loop.  In both loops an exception raised by the
    [try] body of an item is caught: the failure list gains an entry with
    the item's name and [str(e)], and the loop goes on with the remaining
    items from there.  The conversion loop returns for every list of keys,
    having processed each of them, whatever the collaborators do; the
    embedding loop never raises, and returns whenever every document is
    chunked in finitely many iterations. *)
Theorem item_errors_are_absorbed
    {W1 : Type} {EX : Extract.Env W1} {W2 : Type} {EM : Embedding.Env W2} :
  (forall bucket_name pdf_key rest s s1 e,
     Extract.try_body bucket_name pdf_key s = Some (s1, Raise e) ->
     Extract.convert_loop bucket_name (pdf_key :: rest) s =
     Extract.convert_loop bucket_name rest
       (fst s1,
        Extract.on_index Extract.index_processed
          (Extract.on_index (Extract.index_failure pdf_key e) (snd s1)))) /\
  (forall bucket_name pdf_files s,
     exists s',
       Extract.convert_loop bucket_name pdf_files s = Some (s', Ok tt) /\
       Extract.total_processed (Extract.converted_index (snd s')) =
         Extract.total_processed (Extract.converted_index (snd s)) + len pdf_files) /\
  (forall fuel item rest s s1 e,
     Embedding.try_body fuel (fst item) (snd item) s = Some (s1, Raise e) ->
     Embedding.embed_loop fuel (item :: rest) s =
     Embedding.embed_loop fuel rest
       (fst s1,
        (Embedding.report_failure (fst item) e (fst (snd s1)), snd (snd s1)))) /\
  (forall fuel texts_partitioned s s' r,
     Embedding.embed_loop fuel texts_partitioned s = Some (s', r) -> r = Ok tt) /\
  (forall fuel texts_partitioned s,
     Forall (chunking_returns fuel) texts_partitioned ->
     exists s', Embedding.embed_loop fuel texts_partitioned s = Some (s', Ok tt)).
Proof.
  repeat split.
  - intros bucket_name pdf_key rest s s1 e H.
    unfold Extract.convert_loop. cbn [for_each]. unfold bind at 1.
    now rewrite (convert_one_raise _ _ _ _ _ H).
  - intros. apply convert_loop_returns.
  - intros fuel item rest s s1 e H.
    unfold Embedding.embed_loop. cbn [for_each]. unfold bind at 1.
    now rewrite (embed_one_raise _ _ _ _ _ H).
  - intros fuel texts s s' r. apply embed_loop_never_raises.
  - intros. now apply embed_loop_returns.
Qed.

Lemma item_errors_are_absorbed_witness :
  Extract.convert_loop (E := scripted_store (str_eqb (py "raw/pdfs/a.pdf")) true)
    (py "meu-bucket") [py "raw/pdfs/missing.pdf"; py "raw/pdfs/a.pdf"]
    (tt, Extract.initial_locals) =
  Some
    ((tt,
      {| Extract.texts_data := [(py "a", py "# Title")];
         Extract.converted_index :=
           {| Extract.converted_files :=
                [ {| Extract.original_pdf := py "raw/pdfs/a.pdf";
                     Extract.output_txt := py "intermedio/txt/a.txt";
                     Extract.filename := py "a";
                     Extract.status := py "success" |} ];
              Extract.failed_files :=
                [ {| Extract.failed_original_pdf := py "raw/pdfs/missing.pdf";
                     Extract.error := py "An error occurred (404) when calling the HeadObject operation: Not Found";
                     Extract.failed_status := py "failed" |} ];
              Extract.total_processed := 2;
              Extract.total_successful := 1;
              Extract.total_failed := 1 |} |}),
     Ok tt).
Proof.
  destruct (item_errors_are_absorbed
              (EX := scripted_store (str_eqb (py "raw/pdfs/a.pdf")) true)
              (EM := Qdrant.client true)) as [Hraise _].
  rewrite (Hraise (py "meu-bucket") (py "raw/pdfs/missing.pdf") [py "raw/pdfs/a.pdf"]
             (tt, Extract.initial_locals) (tt, Extract.initial_locals)
             (Exception (py "An error occurred (404) when calling the HeadObject operation: Not Found")))
    by (vm_compute; reflexivity).
  vm_compute. reflexivity.
Defined.

(** ** The collection of the vector database *)

Lemma has_after_create (d : Qdrant.db) (name : str) (size : Z) (distance : str) :
  Qdrant.has d name = false ->
  Qdrant.has (fst (Qdrant.create_collection name size distance d)) name = true.
Proof.
  intros H. unfold Qdrant.create_collection. rewrite H. cbn [fst].
  unfold Qdrant.has. cbn [Qdrant.existing].
  rewrite existsb_app. cbn [existsb]. rewrite str_eqb_refl.
  now rewrite orb_true_r.
Qed.

(** A run against a database that has the collection creates nothing and
    leaves the database as it is. *)
Lemma ensure_collection_present (writable : bool) (d : Qdrant.db) :
  Qdrant.has d Embedding.collection_name = true ->
  Embedding.ensure_collection (E := Qdrant.client writable) (d, tt)
    = Some ((d, tt), Ok tt).
Proof.
  intros H. unfold Embedding.ensure_collection, try_except, call.
  cbn [fst snd Embedding.get_collection Qdrant.client].
  unfold Qdrant.get_collection. now rewrite H.
Qed.

(** C8, idempotence of the collection-ensure step.  Against a database
    that does not have the collection yet, the first run creates it and
    the second run finds it and creates nothing: the database receives
    exactly one [create_collection] call over the two runs, and the second
    run leaves it as the first run left it. *)
Theorem ensure_collection_twice_creates_once (writable : bool) (d : Qdrant.db) :
  Qdrant.has d Embedding.collection_name = false ->
  exists d1,
    Embedding.ensure_collection (E := Qdrant.client writable) (d, tt)
      = Some ((d1, tt), Ok tt) /\
    Embedding.ensure_collection (E := Qdrant.client writable) (d1, tt)
      = Some ((d1, tt), Ok tt) /\
    Qdrant.create_calls d1 = Qdrant.create_calls d ++ [Embedding.collection_name].
Proof.
  intros H.
  exists (fst (Qdrant.create_collection Embedding.collection_name
                 Embedding.the_vector_size (py "Cosine") d)).
  split; [|split].
  - unfold Embedding.ensure_collection, try_except, call.
    cbn [fst snd Embedding.get_collection Embedding.create_collection Qdrant.client].
    unfold Qdrant.get_collection. rewrite H. cbn [fst snd].
    unfold Qdrant.create_collection. rewrite H. reflexivity.
  - apply ensure_collection_present. now apply has_after_create.
  - unfold Qdrant.create_collection. rewrite H. reflexivity.
Qed.

Lemma ensure_collection_twice_creates_once_witness :
  exists d1,
    Embedding.ensure_collection (E := Qdrant.client true) (Qdrant.empty, tt)
      = Some ((d1, tt), Ok tt) /\
    Embedding.ensure_collection (E := Qdrant.client true) (d1, tt)
      = Some ((d1, tt), Ok tt) /\
    Qdrant.create_calls d1 =
      Qdrant.create_calls Qdrant.empty ++ [Embedding.collection_name].
Proof.
  apply (ensure_collection_twice_creates_once true Qdrant.empty).
  reflexivity.
Defined.

(** ** The execution reports *)

(** The guard of the conditional expression keeps the division away from a
    zero denominator, whatever the totals are. *)
Lemma success_rate_of_returns (r : Embedding.embedding_report) :
  exists rate, Embedding.success_rate_of r = Ok rate.
Proof.
  unfold Embedding.success_rate_of, Embedding.truediv.
  destruct (Z.gtb_spec (Embedding.total_vectors_created r +
                        Embedding.total_vectors_failed r) 0) as [Hpos|Hle].
  - destruct (Z.eqb_spec (Embedding.total_vectors_created r +
                          Embedding.total_vectors_failed r) 0); [lia|eauto].
  - eauto.
Qed.

(** C9, the success rate.  For a report whose two totals are counts,
    [generate_execution_reports] returns, and the success rate it stores is
    the integer 0 when no vector was attempted and the quotient
    [total_vectors_created / (total_vectors_created + total_vectors_failed)]
    otherwise, a division whose denominator is not zero. *)
Theorem success_rate_is_guarded {W : Type} {E : Embedding.Env W}
    (r : Embedding.embedding_report) (c : Embedding.collections_used) (w : W) :
  0 <= Embedding.total_vectors_created r ->
  0 <= Embedding.total_vectors_failed r ->
  exists w' r' c' rate time,
    Embedding.generate_execution_reports r c (w, tt) = Some ((w', tt), Ok (r', c')) /\
    Embedding.execution_summary r' =
      Some {| Embedding.success_rate := rate; Embedding.processing_time := time |} /\
    Embedding.success_rate_of r = Ok rate /\
    (Embedding.total_vectors_created r + Embedding.total_vectors_failed r = 0 ->
     rate = Embedding.PyInt 0) /\
    (Embedding.total_vectors_created r + Embedding.total_vectors_failed r <> 0 ->
     Embedding.truediv (Embedding.total_vectors_created r)
       (Embedding.total_vectors_created r + Embedding.total_vectors_failed r)
       = Ok rate /\
     rate = Embedding.PyFloat
              (inject_Z (Embedding.total_vectors_created r) /
               inject_Z (Embedding.total_vectors_created r +
                         Embedding.total_vectors_failed r))).
Proof.
  intros Hc Hf.
  destruct (success_rate_of_returns r) as [rate Hrate].
  unfold Embedding.generate_execution_reports, bind, of_result, ask, ret.
  rewrite Hrate. cbn [fst snd].
  destruct (Embedding.now_isoformat w) as [w1 t1]. cbn [fst snd].
  destruct (Embedding.now_isoformat w1) as [w2 t2].
  do 5 eexists. split; [reflexivity|]. split; [reflexivity|].
  split; [reflexivity|].
  revert Hrate. unfold Embedding.success_rate_of, Embedding.truediv.
  destruct (Z.gtb_spec (Embedding.total_vectors_created r +
                        Embedding.total_vectors_failed r) 0) as [Hpos|Hle].
  - destruct (Z.eqb_spec (Embedding.total_vectors_created r +
                          Embedding.total_vectors_failed r) 0); [lia|].
    intros [= <-]. split; [lia|]. intros _. split; reflexivity.
  - intros [= <-]. split; [reflexivity|]. lia.
Qed.

Lemma success_rate_is_guarded_witness :
  exists w' r' c' rate time,
    Embedding.generate_execution_reports (E := Qdrant.client true)
      {| Embedding.timestamp := py "2025-01-01T00:00:00";
         Embedding.total_documents := 0;
         Embedding.processed_documents := [];
         Embedding.failed_documents := [];
         Embedding.total_vectors_created := 0;
         Embedding.total_vectors_failed := 0;
         Embedding.execution_summary := None |}
      {| Embedding.collections_timestamp := py "2025-01-01T00:00:00";
         Embedding.collections := [Embedding.collection_name];
         Embedding.collection_details := [];
         Embedding.collections_execution_summary := None |}
      (Qdrant.empty, tt) = Some ((w', tt), Ok (r', c')) /\
    Embedding.execution_summary r' =
      Some {| Embedding.success_rate := rate; Embedding.processing_time := time |} /\
    rate = Embedding.PyInt 0.
Proof.
  destruct (success_rate_is_guarded (E := Qdrant.client true)
              {| Embedding.timestamp := py "2025-01-01T00:00:00";
                 Embedding.total_documents := 0;
                 Embedding.processed_documents := [];
                 Embedding.failed_documents := [];
                 Embedding.total_vectors_created := 0;
                 Embedding.total_vectors_failed := 0;
                 Embedding.execution_summary := None |}
              {| Embedding.collections_timestamp := py "2025-01-01T00:00:00";
                 Embedding.collections := [Embedding.collection_name];
                 Embedding.collection_details := [];
                 Embedding.collections_execution_summary := None |}
              Qdrant.empty)
    as (w' & r' & c' & rate & time & Hrun & Hsum & _ & Hzero & _).
  - simpl. lia.
  - simpl. lia.
  - exists w', r', c', rate, time. split; [assumption|]. split; [assumption|].
    apply Hzero. reflexivity.
Defined.

(** ** Accounting *)

Lemma listed_once_more_processed (P F R : list str) (k : str) :
  Permutation (((P ++ [k]) ++ F) ++ R) ((P ++ F) ++ k :: R).
Proof.
  rewrite <- !app_assoc. apply Permutation_app_head. cbn.
  apply Permutation_middle.
Qed.

Lemma listed_once_more_failed (P F R : list str) (k : str) :
  Permutation ((P ++ F ++ [k]) ++ R) ((P ++ F) ++ k :: R).
Proof. rewrite <- !app_assoc. reflexivity. Qed.

(** The embedding loop lists every document once: after the loop the
    names listed as processed and as failed are, together, the names that
    were listed before and the names of the documents of the loop. *)
Lemma embed_loop_accounting {W : Type} {E : Embedding.Env W} (fuel : nat)
    (texts_partitioned : dict str) :
  Forall (chunking_returns fuel) texts_partitioned ->
  forall (w : W) (l : Embedding.locals),
    (exists d, dict_get (Embedding.collection_details (snd l))
                 Embedding.collection_name = Some d) ->
    exists w' l',
      Embedding.embed_loop fuel texts_partitioned (w, l) = Some ((w', l'), Ok tt) /\
      Permutation (processed_names (fst l') ++ failed_names (fst l'))
        ((processed_names (fst l) ++ failed_names (fst l)) ++ keys texts_partitioned).
Proof.
  unfold Embedding.embed_loop.
  induction texts_partitioned as [|item rest IH]; intros Hall w l [d Hd];
    cbn [for_each].
  - exists w, l. split; [reflexivity|]. cbn. now rewrite app_nil_r.
  - inversion Hall as [|? ? Hitem Hrest]; subst.
    pose proof (embed_one_cases fuel item w l d Hd) as Hcases.
    unfold chunking_returns in Hitem.
    destruct (Chunker._split_text_into_chunks fuel (snd item) 1000 200)
      as [chunks|]; [|congruence].
    unfold bind.
    destruct Hcases as (w1 & [-> | (e & ->)]).
    + edestruct (IH Hrest w1) as (w' & l' & -> & Hperm).
      { cbn [snd]. rewrite details_with_detail, dict_get_set. eauto. }
      exists w', l'. split; [reflexivity|].
      rewrite Hperm. unfold processed_names, failed_names.
      cbn [fst Embedding.processed_documents Embedding.failed_documents
           Embedding.report_success keys map].
      rewrite map_app. apply listed_once_more_processed.
    + edestruct (IH Hrest w1) as (w' & l' & -> & Hperm).
      { cbn [snd]. eauto. }
      exists w', l'. split; [reflexivity|].
      rewrite Hperm. unfold processed_names, failed_names.
      cbn [fst Embedding.processed_documents Embedding.failed_documents
           Embedding.report_failure keys map].
      rewrite map_app. apply listed_once_more_failed.
Qed.

(** The conversion loop lists every key once as long as the clean-up of
    the temporary file, its closing and its removal, does not raise. *)
Section ExtractCleanUp.
Import Extract.
Context {W : Type} {E : Env W}.
Hypothesis close_file_returns : forall name w, snd (close_file name w) = Ok tt.
Hypothesis unlink_returns : forall name w, snd (unlink name w) = Ok tt.

Lemma try_body_exclusive (bucket_name pdf_key : str) (w : W) (l : locals) :
  exists w' l' r,
    try_body bucket_name pdf_key (w, l) = Some ((w', l'), r) /\
    ((l' = l /\ exists e, r = Raise e) \/
     (r = Ok tt /\ exists text_content, l' = converted pdf_key text_content l)).
Proof.
  unfold try_body, with_as, with_body, store_text, record_success, converted.
  unfold bind, call, of_result, modify, ret, raise. cbn [fst snd].
  repeat match goal with
  | |- context [let (_, _) := ?x in _] =>
      destruct x as [? [?|?]] eqn:?; cbn [fst snd]
  | |- context [match encode_utf8 ?x with _ => _ end] =>
      destruct (encode_utf8 x); cbn [fst snd]
  end;
  try match goal with
  | H : close_file ?n ?w0 = (_, Raise _) |- _ =>
      pose proof (close_file_returns n w0) as X; rewrite H in X; discriminate X
  | H : unlink ?n ?w0 = (_, Raise _) |- _ =>
      pose proof (unlink_returns n w0) as X; rewrite H in X; discriminate X
  end;
  repeat match goal with u : unit |- _ => destruct u end;
  do 3 eexists; (split; [reflexivity|]);
  first [ left; split; [reflexivity|eexists; reflexivity]
        | right; split; [reflexivity|eexists; reflexivity] ].
Qed.

Lemma convert_one_exclusive (bucket_name pdf_key : str) (w : W) (l : locals) :
  exists w' l',
    convert_one bucket_name pdf_key (w, l) = Some ((w', l'), Ok tt) /\
    ((exists e, l' = on_index index_processed (on_index (index_failure pdf_key e) l)) \/
     (exists text_content,
        l' = on_index index_processed (converted pdf_key text_content l))).
Proof.
  unfold convert_one, bind, try_except.
  destruct (try_body_exclusive bucket_name pdf_key w l)
    as (w1 & l1 & r & -> & [[-> [e ->]] | [-> [text_content ->]]]);
    unfold record_failure, count_processed, modify; cbn [fst snd];
    do 2 eexists; (split; [reflexivity|]); eauto.
Qed.

Lemma convert_loop_accounting (bucket_name : str) (pdf_files : list str) :
  forall (w : W) (l : locals),
    exists w' l',
      convert_loop bucket_name pdf_files (w, l) = Some ((w', l'), Ok tt) /\
      Permutation
        (converted_keys (converted_index l') ++ failed_keys (converted_index l'))
        ((converted_keys (converted_index l) ++ failed_keys (converted_index l))
         ++ pdf_files) /\
      total_successful (converted_index l') + total_failed (converted_index l') =
        total_successful (converted_index l) + total_failed (converted_index l)
        + len pdf_files.
Proof.
  unfold convert_loop.
  induction pdf_files as [|pdf_key rest IH]; intros w l; cbn [for_each].
  - exists w, l. split; [reflexivity|]. rewrite app_nil_r.
    split; [reflexivity|]. unfold len; simpl; lia.
  - unfold bind at 1.
    destruct (convert_one_exclusive bucket_name pdf_key w l)
      as (w1 & l1 & -> & [[e ->] | [text_content ->]]);
      match goal with
      | |- context [for_each _ rest (?w0, ?l0)] =>
          destruct (IH w0 l0) as (w' & l' & -> & Hperm & Hcount)
      end;
      exists w', l'; (split; [reflexivity|]); split.
    + rewrite Hperm. unfold converted_keys, failed_keys. cbn.
      rewrite map_app. apply listed_once_more_failed.
    + rewrite Hcount. unfold len. cbn. lia.
    + rewrite Hperm. unfold converted_keys, failed_keys, converted. cbn.
      rewrite map_app. apply listed_once_more_processed.
    + rewrite Hcount. unfold len. cbn. lia.
Qed.
End ExtractCleanUp.

(** C3, the accounting of the conversion loop.  The property fails on the
    code: removing the temporary file, line 141, is inside the [try] body
    and comes after the conversion has been recorded.  When [os.unlink]
    raises for a PDF that was converted, the handler records the same key
    as failed: the key is in both lists and
    [total_successful + total_failed] is 2 for 1 processed item. *)
Theorem convert_lists_an_item_twice :
  exists l,
    Extract.convert_pdfs_to_text (E := scripted_store (fun _ => true) false)
      [py "raw/pdfs/a.pdf"] (py "meu-bucket") (tt, tt) = Some ((tt, tt), Ok l) /\
    Extract.converted_keys (Extract.converted_index l) = [py "raw/pdfs/a.pdf"] /\
    Extract.failed_keys (Extract.converted_index l) = [py "raw/pdfs/a.pdf"] /\
    Extract.total_processed (Extract.converted_index l) = 1 /\
    Extract.total_successful (Extract.converted_index l) = 1 /\
    Extract.total_failed (Extract.converted_index l) = 1.
Proof.
  eexists. split; [vm_compute; reflexivity|].
  repeat split; vm_compute; reflexivity.
Qed.

(** C4, the running totals of vectors.  The property fails on the code for
    a failed document: line 135 adds 1 to [total_vectors_failed], not the
    number of chunks.  A document of 1500 letters has two chunks; when the
    upsert of its two points raises, no vector is created and
    [total_vectors_failed] is 1. *)
Theorem failed_document_counts_as_one_vector :
  Chunker._split_text_into_chunks 2 (letters "b" 1500) 1000 200 =
    Some [letters "b" 1000; letters "b" 700] /\
  exists w r c,
    Embedding.generate_embeddings_and_upsert (E := Qdrant.client false) 2
      [(py "doc", letters "b" 1500)]
      (Extract.converted_index Extract.initial_locals) (Qdrant.empty, tt)
      = Some ((w, tt), Ok (r, c)) /\
    failed_names r = [py "doc"] /\
    processed_names r = [] /\
    Embedding.total_vectors_created r = 0 /\
    Embedding.total_vectors_failed r = 1.
Proof.
  split; [vm_compute; reflexivity|].
  do 3 eexists. split; [vm_compute; reflexivity|].
  repeat split; vm_compute; reflexivity.
Qed.

(** * Further properties of the chunker *)

Lemma rfind_range (text : str) (c : char) (a b : Z) :
  rfind text c a b = -1 \/
  adjust_index (len text) a <= rfind text c a b < adjust_index (len text) b.
Proof.
  unfold rfind.
  destruct (rfind_scan_spec c text 0 (adjust_index (len text) a)
              (adjust_index (len text) b) (-1))
    as [[Hr _] | (k & Hr & Hin & _ & _)]; [now left|].
  right. rewrite Hr. exact Hin.
Qed.

Lemma len_slice {A} (text : list A) (a b : Z) :
  len (slice text a b) <=
  Z.max 0 (adjust_index (len text) b - adjust_index (len text) a).
Proof.
  unfold slice, len at 1. rewrite length_firstn. lia.
Qed.

Lemma len_strip (s : str) : len (strip s) <= len s.
Proof.
  destruct (strip_substring s) as (before & after & H).
  rewrite H at 2. rewrite !len_app.
  unfold len. lia.
Qed.

(** A window taken from a start that is at least [-1 - overlap] is at most
    [chunk_size] characters long, and the next start is at least
    [-1 - overlap] again. *)
Lemma window_bounds (text : str) (chunk_size overlap start : Z) :
  0 <= overlap <= chunk_size -> chunk_size < len text ->
  -1 - overlap <= start < len text ->
  adjust_index (len text) (Chunker.window_end text chunk_size start)
    - adjust_index (len text) start <= chunk_size /\
  -1 - overlap <=
    Chunker.next_start text overlap (Chunker.window_end text chunk_size start).
Proof.
  intros Hparams Hlong Hstart.
  unfold Chunker.next_start, Chunker.window_end.
  destruct (Z.ltb_spec (start + chunk_size) (len text)) as [Hin|Hout].
  - destruct (rfind_range text space start (start + chunk_size)) as [Hr|Hr].
    + rewrite Hr.
      destruct (Z.gtb_spec (-1) start) as [Hneg|Hpos].
      * destruct (Z.ltb_spec (-1) (len text)); [|lia].
        unfold adjust_index.
        destruct (Z.ltb_spec (-1) 0), (Z.ltb_spec start 0); lia.
      * destruct (Z.ltb_spec (start + chunk_size) (len text)); [|lia].
        unfold adjust_index.
        destruct (Z.ltb_spec (start + chunk_size) 0), (Z.ltb_spec start 0); lia.
    + revert Hr. set (p := rfind text space start (start + chunk_size)).
      intros Hr.
      destruct (Z.gtb_spec p start) as [Hcut|Hkeep].
      * assert (Hp : 0 <= p < len text).
        { revert Hr. unfold adjust_index.
          destruct (Z.ltb_spec (start + chunk_size) 0), (Z.ltb_spec start 0); lia. }
        destruct (Z.ltb_spec p (len text)); [|lia].
        revert Hr. unfold adjust_index.
        destruct (Z.ltb_spec (start + chunk_size) 0), (Z.ltb_spec start 0),
          (Z.ltb_spec p 0); lia.
      * destruct (Z.ltb_spec (start + chunk_size) (len text)); [|lia].
        unfold adjust_index.
        destruct (Z.ltb_spec (start + chunk_size) 0), (Z.ltb_spec start 0); lia.
  - destruct (Z.ltb_spec (start + chunk_size) (len text)); [lia|].
    unfold adjust_index.
    destruct (Z.ltb_spec (start + chunk_size) 0), (Z.ltb_spec start 0); lia.
Qed.

Lemma while_loop_chunk_size (text : str) (chunk_size overlap : Z) :
  0 <= overlap <= chunk_size -> chunk_size < len text ->
  forall fuel start chunks result,
    -1 - overlap <= start ->
    Forall (fun chunk => len chunk <= chunk_size) chunks ->
    Chunker.while_loop fuel text chunk_size overlap start chunks = Some result ->
    Forall (fun chunk => len chunk <= chunk_size) result.
Proof.
  intros Hparams Hlong.
  induction fuel as [|fuel IH]; intros start chunks result Hstart Hall; simpl;
    destruct (Z.ltb_spec start (len text)) as [Hlt|Hge]; try congruence.
  destruct (window_bounds text chunk_size overlap start) as [Hwin Hnext];
    try lia.
  apply IH; [assumption|].
  unfold Chunker.append_chunk. destruct (truthy _); [|assumption].
  apply Forall_app. split; [assumption|]. constructor; [|constructor].
  pose proof (len_strip (slice text start (Chunker.window_end text chunk_size start))).
  pose proof (len_slice text start (Chunker.window_end text chunk_size start)).
  lia.
Qed.

(** X1, the size of the chunks.  For [0 <= overlap <= chunk_size], no chunk
    that [_split_text_into_chunks] returns is longer than [chunk_size]
    characters, also on the texts for which a start becomes negative. *)
Theorem chunks_are_at_most_chunk_size (fuel : nat) (text : str)
    (chunk_size overlap : Z) (chunks : list str) :
  0 <= overlap <= chunk_size ->
  Chunker._split_text_into_chunks fuel text chunk_size overlap = Some chunks ->
  Forall (fun chunk => len chunk <= chunk_size) chunks.
Proof.
  intros Hparams. unfold Chunker._split_text_into_chunks.
  destruct (Z.leb_spec (len text) chunk_size) as [Hshort|Hlong].
  - intros [= <-]. constructor; [assumption|constructor].
  - apply while_loop_chunk_size; try assumption; [lia|constructor].
Qed.

Lemma chunks_are_at_most_chunk_size_witness :
  Forall (fun chunk => len chunk <= 10)
    [py "ab"; py "fghijklmno"; py "mnop"].
Proof.
  apply (chunks_are_at_most_chunk_size 4 (py "ab cdefghijklmnop") 10 3).
  - lia.
  - vm_compute. reflexivity.
Defined.

(** *** Whitespace at the ends of a chunk *)

Lemma lstrip_split (s : str) :
  exists ws, s = ws ++ lstrip s /\ forallb isspace ws = true.
Proof.
  induction s as [|c s (ws & IH & Hws)]; simpl.
  - exists []. auto.
  - destruct (isspace c) eqn:Hc.
    + exists (c :: ws). simpl. rewrite Hc, Hws. split; [now f_equal|reflexivity].
    + exists []. auto.
Qed.

Lemma lstrip_clean (s : str) : starts_clean (lstrip s).
Proof.
  induction s as [|c s IH]; simpl; [exact I|].
  destruct (isspace c) eqn:Hc; [assumption|]. simpl. assumption.
Qed.

Lemma lstrip_of_clean (s : str) : starts_clean s -> lstrip s = s.
Proof. destruct s as [|c s]; simpl; [reflexivity|]. now intros ->. Qed.

Lemma rstrip_clean (s : str) : starts_clean s -> starts_clean (rstrip s).
Proof.
  intros Hs. destruct (rstrip_prefix s) as [ws H].
  destruct (rstrip s) as [|c r]; [exact I|].
  rewrite H in Hs. exact Hs.
Qed.

Lemma strip_trimmed (s : str) : trimmed (strip s).
Proof.
  unfold trimmed, strip. split.
  - apply rstrip_clean, lstrip_clean.
  - unfold rstrip. rewrite rev_involutive. apply lstrip_clean.
Qed.

Lemma lstrip_blank (s : str) : forallb isspace s = true -> lstrip s = [].
Proof.
  induction s as [|c s IH]; simpl; [reflexivity|].
  intros H. apply andb_prop in H as [-> Hs]. auto.
Qed.

Lemma strip_blank (s : str) : forallb isspace s = true -> strip s = [].
Proof. intros H. unfold strip. now rewrite lstrip_blank. Qed.

Lemma forallb_firstn {A} (f : A -> bool) (n : nat) (l : list A) :
  forallb f l = true -> forallb f (firstn n l) = true.
Proof.
  revert n. induction l as [|x l IH]; intros [|n]; simpl; auto.
  intros H. apply andb_prop in H as [-> Hl]. simpl. auto.
Qed.

Lemma forallb_skipn {A} (f : A -> bool) (n : nat) (l : list A) :
  forallb f l = true -> forallb f (skipn n l) = true.
Proof.
  revert n. induction l as [|x l IH]; intros [|n]; simpl; auto.
  intros H. apply andb_prop in H as [_ Hl]. auto.
Qed.

Lemma slice_blank (text : str) (a b : Z) :
  forallb isspace text = true -> forallb isspace (slice text a b) = true.
Proof. intros H. unfold slice. now apply forallb_firstn, forallb_skipn. Qed.

(** X2, no whitespace around a chunk.  For a text longer than
    [chunk_size], every chunk returned is non-empty and neither begins nor
    ends with a whitespace character. *)
Theorem long_text_chunks_are_trimmed (fuel : nat) (text : str)
    (chunk_size overlap : Z) (chunks : list str) :
  chunk_size < len text ->
  Chunker._split_text_into_chunks fuel text chunk_size overlap = Some chunks ->
  Forall (fun chunk => chunk <> [] /\ trimmed chunk) chunks.
Proof.
  intros Hlong. unfold Chunker._split_text_into_chunks.
  destruct (Z.leb_spec (len text) chunk_size); [lia|].
  apply while_loop_Forall; [|constructor].
  intros a b Ht. split; [now apply truthy_nonempty|apply strip_trimmed].
Qed.

Lemma long_text_chunks_are_trimmed_witness :
  Forall (fun chunk => chunk <> [] /\ trimmed chunk)
    [py "the quick"; py "ick brown"; py "own fox"; py "fox jumps"; py "mps over"].
Proof.
  apply (long_text_chunks_are_trimmed 5 (py "the quick brown fox jumps over") 10 3).
  - vm_compute. reflexivity.
  - vm_compute. reflexivity.
Defined.

(** What a whitespace-only text gives when its chunking returns. *)
Lemma blank_text_chunks_returned (fuel : nat) (text : str) (chunk_size overlap : Z)
    (chunks : list str) :
  forallb isspace text = true ->
  Chunker._split_text_into_chunks fuel text chunk_size overlap = Some chunks ->
  chunks = if len text <=? chunk_size then [text] else [].
Proof.
  intros Hblank. unfold Chunker._split_text_into_chunks.
  destruct (len text <=? chunk_size); [congruence|].
  intros Hloop.
  assert (H : Forall (fun _ : str => False) chunks).
  { eapply while_loop_Forall; [|constructor|exact Hloop].
    intros a b Ht. rewrite strip_blank in Ht by now apply slice_blank.
    discriminate Ht. }
  destruct chunks as [|c chunks]; [reflexivity|].
  inversion H as [|? ? []].
Qed.

(** X3, texts of whitespace only.  Such a text is returned whole, as the
    one chunk, when it has at most [chunk_size] characters.  When it is
    longer and holds no space character (tabs, line breaks and the other
    whitespace only), its chunking returns, for
    [0 <= overlap < chunk_size] and within
    [ceil(len(text) / (chunk_size - overlap))] iterations, and what it
    returns is the empty list. *)
Theorem blank_text_chunks (fuel : nat) (text : str) (chunk_size overlap : Z) :
  forallb isspace text = true ->
  (len text <= chunk_size ->
   Chunker._split_text_into_chunks fuel text chunk_size overlap = Some [text]) /\
  (chunk_size < len text -> ~ In space text -> 0 <= overlap < chunk_size ->
   len text <= Z.of_nat fuel * (chunk_size - overlap) ->
   Chunker._split_text_into_chunks fuel text chunk_size overlap = Some []).
Proof.
  intros Hblank. split.
  - intros Hshort. unfold Chunker._split_text_into_chunks.
    destruct (Z.leb_spec (len text) chunk_size); [reflexivity|lia].
  - intros Hlong Hnospace Hparams Hfuel.
    destruct (split_text_into_chunks_hard_cuts_terminate fuel text chunk_size
                overlap Hnospace Hparams Hfuel) as [chunks Hsplit].
    rewrite Hsplit. f_equal.
    rewrite (blank_text_chunks_returned fuel text chunk_size overlap chunks
               Hblank Hsplit).
    destruct (Z.leb_spec (len text) chunk_size); [lia|reflexivity].
Qed.

Lemma blank_text_chunks_witness :
  Chunker._split_text_into_chunks 0 (letters " " 7) 10 3 = Some [letters " " 7] /\
  Chunker._split_text_into_chunks 2 (letters "009" 12) 10 3 = Some [].
Proof.
  split.
  - apply (blank_text_chunks 0 (letters " " 7) 10 3).
    + vm_compute. reflexivity.
    + vm_compute. discriminate.
  - apply (blank_text_chunks 2 (letters "009" 12) 10 3).
    + vm_compute. reflexivity.
    + vm_compute. reflexivity.
    + intros H. vm_compute in H.
      repeat (destruct H as [H|H]; [discriminate H|]). exact H.
    + lia.
    + vm_compute. discriminate.
Defined.

(** * Further properties of the embedding node *)

Section EmbeddingPoints.
Import Embedding.
Context {W : Type} {E : Env W}.

Lemma build_points_payloads (name : str) (total : Z) (chunks : list str) :
  forall i points s s' result,
    build_points name total i chunks points s = Some (s', Ok result) ->
    exists new,
      result = points ++ new /\
      List.length new = List.length chunks /\
      forall k chunk,
        nth_error chunks k = Some chunk ->
        exists p, nth_error new k = Some p /\
                  payload_of_chunk name total (i + Z.of_nat k) chunk p.
Proof.
  induction chunks as [|chunk rest IH]; intros i points s s' result;
    cbn [build_points].
  - unfold ret. intros [= _ <-]. exists []. rewrite app_nil_r.
    split; [reflexivity|]. split; [reflexivity|].
    intros [|k] c; discriminate.
  - unfold bind at 1, call at 1.
    destruct (embed chunk (fst s)) as [w1 [embedding|e]]; [|discriminate].
    unfold bind at 1, ask at 1. cbn [fst snd].
    destruct (uuid4 w1) as [w2 point_id].
    unfold bind at 1, ask at 1. cbn [fst snd].
    destruct (now_isoformat w2) as [w3 now].
    intros Hrest. apply IH in Hrest as (new & -> & Hlen & Hnth).
    eexists (_ :: new). rewrite <- app_assoc. split; [reflexivity|].
    split; [simpl; now rewrite Hlen|].
    intros [|k] c Hc.
    + injection Hc as <-. eexists. split; [reflexivity|].
      unfold payload_of_chunk. cbn. rewrite Z.add_0_r. auto.
    + destruct (Hnth k c Hc) as (p & Hp & Hpay).
      exists p. split; [exact Hp|].
      replace (i + Z.of_nat (S k)) with (i + 1 + Z.of_nat k) by lia.
      exact Hpay.
Qed.
End EmbeddingPoints.

(** X4, the points of a document.  When the points of a document are
    built (lines 88-107), there is one point per chunk, in the order of the
    chunks: the point of the chunk at index [k] carries the document's
    name, [chunk_index = k], the chunk as its text and
    [total_chunks = len(chunks)]. *)
Theorem points_follow_chunks {W : Type} {E : Embedding.Env W}
    (name : str) (chunks : list str) (s s' : W * Embedding.locals)
    (points : list (Embedding.PointStruct Embedding.vector)) :
  Embedding.build_points name (len chunks) 0 chunks [] s = Some (s', Ok points) ->
  len points = len chunks /\
  forall k chunk,
    nth_error chunks k = Some chunk ->
    exists p, nth_error points k = Some p /\
              payload_of_chunk name (len chunks) (Z.of_nat k) chunk p.
Proof.
  intros H. apply build_points_payloads in H as (new & -> & Hlen & Hnth).
  cbn [app]. split; [unfold len; now rewrite Hlen|exact Hnth].
Qed.

Lemma points_follow_chunks_witness :
  exists p,
    nth_error
      [ {| Embedding.id := py "5f0c7b1e-2d3a-4c8e-9f6b-0a1b2c3d4e5f";
           Embedding.point_vector := 2;
           Embedding.point_payload :=
             {| Embedding.payload_filename := py "doc";
                Embedding.chunk_index := 0;
                Embedding.text := py "ab";
                Embedding.total_chunks := 2;
                Embedding.source := py "pdf_conversion";
                Embedding.created_at := py "2025-01-01T00:00:00" |} |};
        {| Embedding.id := py "5f0c7b1e-2d3a-4c8e-9f6b-0a1b2c3d4e5f";
           Embedding.point_vector := 3;
           Embedding.point_payload :=
             {| Embedding.payload_filename := py "doc";
                Embedding.chunk_index := 1;
                Embedding.text := py "cde";
                Embedding.total_chunks := 2;
                Embedding.source := py "pdf_conversion";
                Embedding.created_at := py "2025-01-01T00:00:00" |} |} ] 1
      = Some p /\
    payload_of_chunk (V := Z) (py "doc") 2 1 (py "cde") p.
Proof.
  destruct (points_follow_chunks (E := Qdrant.client true) (py "doc")
              [py "ab"; py "cde"]
              (Qdrant.ready, fresh_reports)
              (Qdrant.ready, fresh_reports)
              _ eq_refl) as [_ H].
  exact (H 1%nat (py "cde") eq_refl).
Defined.

Section EmbeddingReports.
Import Embedding.
Context {W : Type} {E : Env W}.

(** The reports that lines 58-78 create. *)
Lemma initial_reports_value (texts_partitioned : dict str) (w w0 : W) (l0 : locals) :
  initial_reports texts_partitioned (w, tt) = Some ((w0, tt), Ok l0) ->
  exists t1 t2,
    l0 = ({| timestamp := t1;
             total_documents := len texts_partitioned;
             processed_documents := [];
             failed_documents := [];
             total_vectors_created := 0;
             total_vectors_failed := 0;
             execution_summary := None |},
          {| collections_timestamp := t2;
             collections := [collection_name];
             collection_details :=
               [ (collection_name,
                  {| vector_size := the_vector_size;
                     distance_metric := py "COSINE";
                     documents_added := 0;
                     vectors_added := 0 |}) ];
             collections_execution_summary := None |}).
Proof.
  unfold initial_reports, bind, ask, ret. cbn [fst snd].
  destruct (now_isoformat w) as [w1 t1]. cbn [fst snd].
  destruct (now_isoformat w1) as [w2 t2].
  intros [= _ <-]. eauto.
Qed.

(** Every run of the loop that returns has listed each of its documents
    once, as processed or as failed. *)
Lemma embed_loop_lists (fuel : nat) (texts_partitioned : dict str) :
  forall (w w' : W) (l l' : locals) r,
    (exists d, dict_get (collection_details (snd l)) collection_name = Some d) ->
    embed_loop fuel texts_partitioned (w, l) = Some ((w', l'), r) ->
    Permutation (processed_names (fst l') ++ failed_names (fst l'))
      ((processed_names (fst l) ++ failed_names (fst l)) ++ keys texts_partitioned).
Proof.
  unfold embed_loop.
  induction texts_partitioned as [|item rest IH]; intros w w' l l' r [d Hd];
    cbn [for_each].
  - unfold ret. intros [= _ <- _]. cbn. now rewrite app_nil_r.
  - pose proof (embed_one_cases fuel item w l d Hd) as Hcases.
    unfold bind.
    destruct (Chunker._split_text_into_chunks fuel (snd item) 1000 200)
      as [chunks|]; [|rewrite Hcases; discriminate].
    destruct Hcases as (w1 & [-> | (e & ->)]); intros Hrest;
      apply IH in Hrest; try (cbn [snd]; eauto).
    + rewrite Hrest. unfold processed_names, failed_names.
      cbn [fst processed_documents failed_documents report_success keys map].
      rewrite map_app. apply listed_once_more_processed.
    + cbn [snd]. rewrite details_with_detail, dict_get_set. eauto.
    + rewrite Hrest. unfold processed_names, failed_names.
      cbn [fst processed_documents failed_documents report_failure keys map].
      rewrite map_app. apply listed_once_more_failed.
Qed.

Lemma sum_chunks_created_success (name : str) (chunks : list str)
    (r : embedding_report) :
  sum_chunks_created (report_success name chunks r) =
  sum_chunks_created r + len chunks.
Proof.
  unfold sum_chunks_created. cbn [processed_documents report_success].
  induction (processed_documents r) as [|d ds IH]; cbn; [lia|].
  cbn in IH. rewrite IH. lia.
Qed.
End EmbeddingReports.

(** X5, the accounting of the embedding node.  When
    [generate_embeddings_and_upsert] returns, every document of
    [texts_partitioned] is listed exactly once, in [processed_documents] or
    in [failed_documents], and the two lists together have
    [total_documents = len(texts_partitioned)] entries. *)
Theorem embedding_node_lists_each_document_once {W : Type} {E : Embedding.Env W}
    (fuel : nat) (texts_partitioned : dict str) (index : Extract.conversion_index)
    (w : W) (s' : W * unit) (r : Embedding.embedding_report)
    (c : Embedding.collections_used) :
  Embedding.generate_embeddings_and_upsert fuel texts_partitioned index (w, tt)
    = Some (s', Ok (r, c)) ->
  Permutation (processed_names r ++ failed_names r) (keys texts_partitioned) /\
  Embedding.total_documents r = len texts_partitioned /\
  len (Embedding.processed_documents r) + len (Embedding.failed_documents r)
    = Embedding.total_documents r.
Proof.
  intros Hnode.
  destruct (node_returns_through_loop _ _ _ _ _ _ Hnode)
    as (w1 & w0 & l0 & w' & H0 & Hloop).
  apply initial_reports_value in H0 as (t1 & t2 & ->).
  assert (Hperm : Permutation (processed_names r ++ failed_names r)
                    (keys texts_partitioned)).
  { apply embed_loop_lists in Hloop; [exact Hloop|].
    cbn [snd Embedding.collection_details dict_get]. rewrite str_eqb_refl. eauto. }
  assert (Hdocs : Embedding.total_documents r = len texts_partitioned).
  { destruct (embed_loop_preserves
                (fun l => (exists d, dict_get (Embedding.collection_details (snd l))
                                       Embedding.collection_name = Some d) /\
                          Embedding.total_documents (fst l) = len texts_partitioned)
                fuel) with (5 := Hloop) as [[_ H] _]; try exact H.
    - intros l [H _]. exact H.
    - intros l d name chunks [_ Hl] _. cbn [fst snd].
      rewrite details_with_detail, dict_get_set. split; [eauto|exact Hl].
    - intros l name e [Hd Hl]. cbn [fst snd]. split; [exact Hd|exact Hl].
    - cbn [fst snd Embedding.collection_details dict_get].
      rewrite str_eqb_refl. split; [eauto|reflexivity]. }
  split; [exact Hperm|]. split; [exact Hdocs|].
  rewrite Hdocs. apply Permutation_length in Hperm.
  unfold processed_names, failed_names, keys in Hperm.
  rewrite length_app, !length_map in Hperm. unfold len. lia.
Qed.

Lemma embedding_node_lists_each_document_once_witness :
  exists r,
    Permutation (processed_names r ++ failed_names r) [py "a"; py "b"] /\
    Embedding.total_documents r = 2 /\
    len (Embedding.processed_documents r) + len (Embedding.failed_documents r)
      = Embedding.total_documents r.
Proof.
  destruct (Embedding.generate_embeddings_and_upsert (E := Qdrant.client true) 0
              [(py "a", py "hello world"); (py "b", py "")]
              (Extract.converted_index Extract.initial_locals) (Qdrant.empty, tt))
    as [[s' [[r c]|e]]|] eqn:Hnode.
  - exists r.
    exact (embedding_node_lists_each_document_once (E := Qdrant.client true) 0
             [(py "a", py "hello world"); (py "b", py "")]
             (Extract.converted_index Extract.initial_locals) Qdrant.empty
             s' r c Hnode).
  - vm_compute in Hnode. discriminate Hnode.
  - vm_compute in Hnode. discriminate Hnode.
Defined.

(** X6, the totals of the embedding report.  When the node returns,
    [total_vectors_created] is the sum of the [chunks_created] of the
    documents listed as processed, and [total_vectors_failed] is the number
    of documents listed as failed. *)
Theorem embedding_totals_match_lists {W : Type} {E : Embedding.Env W}
    (fuel : nat) (texts_partitioned : dict str) (index : Extract.conversion_index)
    (w : W) (s' : W * unit) (r : Embedding.embedding_report)
    (c : Embedding.collections_used) :
  Embedding.generate_embeddings_and_upsert fuel texts_partitioned index (w, tt)
    = Some (s', Ok (r, c)) ->
  Embedding.total_vectors_created r = sum_chunks_created r /\
  Embedding.total_vectors_failed r = len (Embedding.failed_documents r).
Proof.
  intros Hnode.
  destruct (node_returns_through_loop _ _ _ _ _ _ Hnode)
    as (w1 & w0 & l0 & w' & H0 & Hloop).
  apply initial_reports_value in H0 as (t1 & t2 & ->).
  destruct (embed_loop_preserves
              (fun l => (exists d, dict_get (Embedding.collection_details (snd l))
                                     Embedding.collection_name = Some d) /\
                        Embedding.total_vectors_created (fst l)
                          = sum_chunks_created (fst l) /\
                        Embedding.total_vectors_failed (fst l)
                          = len (Embedding.failed_documents (fst l)))
              fuel) with (5 := Hloop) as [[_ H] _]; try exact H.
  - intros l [H _]. exact H.
  - intros l d name chunks (_ & Hc & Hf) _. cbn [fst snd].
    rewrite details_with_detail, dict_get_set. split; [eauto|].
    rewrite sum_chunks_created_success. cbn. split; [lia|exact Hf].
  - intros l name e (Hd & Hc & Hf). cbn [fst snd]. split; [exact Hd|].
    split; [exact Hc|]. cbn. rewrite len_app, Hf. reflexivity.
  - cbn [fst snd Embedding.collection_details dict_get].
    rewrite str_eqb_refl. split; [eauto|]. split; reflexivity.
Qed.

Lemma embedding_totals_match_lists_witness :
  exists r,
    Embedding.total_vectors_created r = sum_chunks_created r /\
    Embedding.total_vectors_failed r = len (Embedding.failed_documents r) /\
    Embedding.total_vectors_created r = 2.
Proof.
  destruct (Embedding.generate_embeddings_and_upsert (E := Qdrant.client true) 2
              [(py "doc", letters "b" 1500)]
              (Extract.converted_index Extract.initial_locals) (Qdrant.empty, tt))
    as [[s' [[r c]|e]]|] eqn:Hnode.
  - exists r.
    destruct (embedding_totals_match_lists (E := Qdrant.client true) 2
                [(py "doc", letters "b" 1500)]
                (Extract.converted_index Extract.initial_locals) Qdrant.empty
                s' r c Hnode) as [Hc Hf].
    split; [exact Hc|]. split; [exact Hf|].
    vm_compute in Hnode. injection Hnode as _ <- _. reflexivity.
  - vm_compute in Hnode. discriminate Hnode.
  - vm_compute in Hnode. discriminate Hnode.
Defined.

(** X7, the exceptions of the embedding node.  When
    [generate_embeddings_and_upsert] raises, the exception is the one of a
    set-up call: of [QdrantClient], of [TextEmbedding], or of
    [create_collection] after [get_collection] raised.  No exception of a
    document leaves the node. *)
Theorem embedding_node_raises_only_from_set_up {W : Type} {E : Embedding.Env W}
    (fuel : nat) (texts_partitioned : dict str) (index : Extract.conversion_index)
    (w : W) (s' : W * unit) (e : exn) :
  Embedding.generate_embeddings_and_upsert fuel texts_partitioned index (w, tt)
    = Some (s', Raise e) ->
  (exists w1, Embedding.QdrantClient w = (w1, Raise e)) \/
  (exists w1 w2,
     Embedding.QdrantClient w = (w1, Ok tt) /\
     Embedding.TextEmbedding (py "BAAI/bge-small-en-v1.5") w1 = (w2, Raise e)) \/
  (exists w1 w2 w3 w4 e0,
     Embedding.QdrantClient w = (w1, Ok tt) /\
     Embedding.TextEmbedding (py "BAAI/bge-small-en-v1.5") w1 = (w2, Ok tt) /\
     Embedding.get_collection Embedding.collection_name w2 = (w3, Raise e0) /\
     Embedding.create_collection Embedding.collection_name
       Embedding.the_vector_size (py "Cosine") w3 = (w4, Raise e)).
Proof.
  intros Hnode. unfold Embedding.generate_embeddings_and_upsert in Hnode.
  unfold bind at 1, call at 1 in Hnode. cbn [fst snd] in Hnode.
  destruct (Embedding.QdrantClient w) as [w1 [[]|e1]] eqn:Hclient;
    [|injection Hnode as _ <-; left; eauto].
  unfold bind at 1, call at 1 in Hnode. cbn [fst snd] in Hnode.
  destruct (Embedding.TextEmbedding (py "BAAI/bge-small-en-v1.5") w1)
    as [w2 [[]|e2]] eqn:Hmodel;
    [|injection Hnode as _ <-; right; left; eauto].
  unfold bind at 1, Embedding.ensure_collection, try_except, call in Hnode.
  cbn [fst snd] in Hnode.
  assert (Hloop : forall w5,
             (reports <- Embedding.initial_reports texts_partitioned;;
              r <- block reports (Embedding.embed_loop fuel texts_partitioned);;
              ret (snd r))%node (w5, tt) <> Some (s', Raise e)).
  { intros w5. unfold bind at 1.
    destruct (initial_reports_agree texts_partitioned w5) as (w0 & l0 & -> & _).
    unfold bind, block, ret. cbn [fst snd].
    destruct (Embedding.embed_loop fuel texts_partitioned (w0, l0))
      as [[[w' l'] r]|] eqn:Hrun; [|discriminate].
    apply embed_loop_never_raises in Hrun. subst r. discriminate. }
  destruct (Embedding.get_collection Embedding.collection_name w2)
    as [w3 [[]|e0]] eqn:Hget.
  - exfalso. exact (Hloop w3 Hnode).
  - cbn [fst snd] in Hnode.
    destruct (Embedding.create_collection Embedding.collection_name
                Embedding.the_vector_size (py "Cosine") w3)
      as [w4 [[]|e4]] eqn:Hcreate.
    + exfalso. exact (Hloop w4 Hnode).
    + injection Hnode as _ <-. right; right. exists w1, w2, w3, w4, e0. auto.
Qed.

Lemma embedding_node_raises_only_from_set_up_witness :
  exists w3 w4 e0,
    Embedding.get_collection (Env := read_only_client) Embedding.collection_name
      Qdrant.empty = (w3, Raise e0) /\
    Embedding.create_collection (Env := read_only_client) Embedding.collection_name
      Embedding.the_vector_size (py "Cosine") w3
      = (w4, Raise (Exception (py "Forbidden"))).
Proof.
  destruct (embedding_node_raises_only_from_set_up (E := read_only_client) 0
              [(py "a", py "hello world")]
              (Extract.converted_index Extract.initial_locals) Qdrant.empty
              (Qdrant.empty, tt) (Exception (py "Forbidden")))
    as [(w1 & H) | [(w1 & w2 & _ & H) | (w1 & w2 & w3 & w4 & e0 & H1 & H2 & H3 & H4)]].
  - vm_compute. reflexivity.
  - discriminate H.
  - discriminate H.
  - injection H1 as <-. injection H2 as <-. exists w3, w4, e0. auto.
Defined.

(** * Further properties of the execution reports *)

Lemma quotient_of_counts (a b : Z) :
  0 <= a <= b -> 0 < b ->
  (0 <= inject_Z a / inject_Z b)%Q /\ (inject_Z a / inject_Z b <= 1)%Q /\
  ((inject_Z a / inject_Z b == 1)%Q <-> a = b).
Proof.
  intros Ha Hb. destruct b as [|p|p]; try lia.
  unfold Qdiv, Qmult, Qinv, inject_Z, Qle, Qeq. cbn.
  rewrite ?Z.mul_1_r, ?Pos.mul_1_l. lia.
Qed.

Lemma quotient_of_nothing (b : Z) : 0 < b -> (inject_Z 0 / inject_Z b == 0)%Q.
Proof.
  intros Hb. destruct b as [|p|p]; try lia.
  unfold Qdiv, Qmult, Qinv, inject_Z, Qeq. cbn. reflexivity.
Qed.

(** X8, the range of the success rate.  For a report whose totals are
    counts, the success rate that [generate_execution_reports] computes is
    the integer 0 when nothing was attempted.  Otherwise it is a float, the
    exact quotient [q] rounded: for every rounding [round] that is monotone
    and leaves 0 and 1 as they are, as rounding to the nearest double
    does, [round q] lies between 0 and 1, is 1 when no failure was counted
    and is 0 when no vector was created. *)
Theorem success_rate_is_a_ratio (round : Q -> Q)
    (r : Embedding.embedding_report) (rate : Embedding.number) :
  (forall p q, (p <= q)%Q -> (round p <= round q)%Q) ->
  (round 0 == 0)%Q -> (round 1 == 1)%Q ->
  0 <= Embedding.total_vectors_created r ->
  0 <= Embedding.total_vectors_failed r ->
  Embedding.success_rate_of r = Ok rate ->
  match rate with
  | Embedding.PyInt z =>
      z = 0 /\
      Embedding.total_vectors_created r + Embedding.total_vectors_failed r = 0
  | Embedding.PyFloat q =>
      0 < Embedding.total_vectors_created r + Embedding.total_vectors_failed r /\
      (0 <= round q)%Q /\ (round q <= 1)%Q /\
      (Embedding.total_vectors_failed r = 0 -> (round q == 1)%Q) /\
      (Embedding.total_vectors_created r = 0 -> (round q == 0)%Q)
  end.
Proof.
  intros Hmono Hzero Hone Hc Hf.
  unfold Embedding.success_rate_of, Embedding.truediv.
  destruct (Z.gtb_spec (Embedding.total_vectors_created r +
                        Embedding.total_vectors_failed r) 0) as [Hpos|Hle].
  - destruct (Z.eqb_spec (Embedding.total_vectors_created r +
                          Embedding.total_vectors_failed r) 0); [lia|].
    intros [= <-]. split; [lia|].
    destruct (quotient_of_counts (Embedding.total_vectors_created r)
                (Embedding.total_vectors_created r + Embedding.total_vectors_failed r))
      as (H0 & H1 & Heq); try lia.
    assert (Hz1 : (round 0 <= 0)%Q) by (rewrite Hzero; apply Qle_refl).
    assert (Hz2 : (0 <= round 0)%Q) by (rewrite Hzero; apply Qle_refl).
    assert (Ho1 : (round 1 <= 1)%Q) by (rewrite Hone; apply Qle_refl).
    assert (Ho2 : (1 <= round 1)%Q) by (rewrite Hone; apply Qle_refl).
    split; [eapply Qle_trans; [exact Hz2|now apply Hmono]|].
    split; [eapply Qle_trans; [apply Hmono; exact H1|exact Ho1]|].
    split.
    + intros Hnone.
      assert (Hq : (inject_Z (Embedding.total_vectors_created r) /
                    inject_Z (Embedding.total_vectors_created r +
                              Embedding.total_vectors_failed r) == 1)%Q)
        by (apply Heq; lia).
      apply Qle_antisym.
      * eapply Qle_trans; [apply Hmono; exact H1|exact Ho1].
      * eapply Qle_trans; [exact Ho2|]. apply Hmono. rewrite Hq. apply Qle_refl.
    + intros Hnone.
      assert (Hq : (inject_Z (Embedding.total_vectors_created r) /
                    inject_Z (Embedding.total_vectors_created r +
                              Embedding.total_vectors_failed r) == 0)%Q)
        by (rewrite Hnone; apply quotient_of_nothing; lia).
      apply Qle_antisym.
      * eapply Qle_trans; [|exact Hz1]. apply Hmono. rewrite Hq. apply Qle_refl.
      * eapply Qle_trans; [exact Hz2|now apply Hmono].
  - intros [= <-]. split; [reflexivity|lia].
Qed.

Lemma success_rate_is_a_ratio_witness :
  (0 <= inject_Z 2 / inject_Z (2 + 1))%Q /\ (inject_Z 2 / inject_Z (2 + 1) <= 1)%Q.
Proof.
  destruct (success_rate_is_a_ratio (fun q => q)
              {| Embedding.timestamp := py "2025-01-01T00:00:00";
                 Embedding.total_documents := 2;
                 Embedding.processed_documents := [];
                 Embedding.failed_documents := [];
                 Embedding.total_vectors_created := 2;
                 Embedding.total_vectors_failed := 1;
                 Embedding.execution_summary := None |}
              (Embedding.PyFloat (inject_Z 2 / inject_Z (2 + 1))))
    as (_ & H0 & H1 & _).
  - intros p q H. exact H.
  - reflexivity.
  - reflexivity.
  - simpl. lia.
  - simpl. lia.
  - reflexivity.
  - split; [exact H0|exact H1].
Defined.

(** X9, the two nodes of the embedding pipeline together.  On the reports
    that [generate_embeddings_and_upsert] returns,
    [generate_execution_reports] returns, whatever the clock; it counts one
    collection, its [total_vectors_across_collections] is the
    [total_vectors_created] of the embedding report, and it leaves the
    lists and the totals of the embedding report as they were. *)
Theorem execution_reports_of_the_embedding_node {W : Type} {E : Embedding.Env W}
    (fuel : nat) (texts_partitioned : dict str) (index : Extract.conversion_index)
    (w w2 : W) (s' : W * unit) (r : Embedding.embedding_report)
    (c : Embedding.collections_used) :
  Embedding.generate_embeddings_and_upsert fuel texts_partitioned index (w, tt)
    = Some (s', Ok (r, c)) ->
  exists w' r' c' summary,
    Embedding.generate_execution_reports r c (w2, tt) = Some ((w', tt), Ok (r', c')) /\
    Embedding.collections_execution_summary c' = Some summary /\
    Embedding.total_collections summary = 1 /\
    Embedding.total_vectors_across_collections summary
      = Embedding.total_vectors_created r /\
    Embedding.processed_documents r' = Embedding.processed_documents r /\
    Embedding.failed_documents r' = Embedding.failed_documents r /\
    Embedding.total_vectors_created r' = Embedding.total_vectors_created r /\
    Embedding.total_vectors_failed r' = Embedding.total_vectors_failed r /\
    Embedding.collection_details c' = Embedding.collection_details c.
Proof.
  intros Hnode.
  destruct (node_returns_through_loop _ _ _ _ _ _ Hnode)
    as (w1 & w0 & l0 & w3 & H0 & Hloop).
  apply initial_reports_value in H0 as (t1 & t2 & ->).
  destruct (embed_loop_preserves
              (fun l => exists d,
                 Embedding.collection_details (snd l)
                   = [(Embedding.collection_name, d)] /\
                 Embedding.collections (snd l) = [Embedding.collection_name] /\
                 Embedding.vectors_added d = Embedding.total_vectors_created (fst l))
              fuel) with (5 := Hloop) as [(d & Hdetails & Hnames & Hvectors) _].
  - intros l (d & Hd & _). exists d. rewrite Hd. cbn [dict_get].
    now rewrite str_eqb_refl.
  - intros l d name chunks (d' & Hd' & Hn & Hv) Hd.
    rewrite Hd' in Hd. cbn [dict_get] in Hd. rewrite str_eqb_refl in Hd.
    injection Hd as <-.
    exists (Embedding.add_vectors (len chunks) (Embedding.add_document d')).
    cbn [fst snd]. rewrite details_with_detail, Hd'. cbn [dict_set].
    rewrite str_eqb_refl. split; [reflexivity|]. split; [exact Hn|].
    cbn. now rewrite Hv.
  - intros l name e (d & Hd & Hn & Hv). exists d. cbn [fst snd]. auto.
  - eexists. cbn [fst snd]. split; [reflexivity|]. split; reflexivity.
  - cbn [fst snd] in *.
    destruct (success_rate_of_returns r) as [rate Hrate].
    unfold Embedding.generate_execution_reports, bind, of_result, ask, ret.
    rewrite Hrate. cbn [fst snd].
    destruct (Embedding.now_isoformat w2) as [w4 t3]. cbn [fst snd].
    destruct (Embedding.now_isoformat w4) as [w5 t4].
    do 4 eexists. split; [reflexivity|]. split; [reflexivity|].
    cbn. rewrite Hnames, Hdetails. unfold Embedding.sum_vectors_added.
    cbn. rewrite Hvectors. repeat split; reflexivity.
Qed.

Lemma execution_reports_of_the_embedding_node_witness :
  exists summary,
    Embedding.total_collections summary = 1 /\
    Embedding.total_vectors_across_collections summary = 2.
Proof.
  destruct (Embedding.generate_embeddings_and_upsert (E := Qdrant.client true) 2
              [(py "doc", letters "b" 1500)]
              (Extract.converted_index Extract.initial_locals) (Qdrant.empty, tt))
    as [[s' [[r c]|e]]|] eqn:Hnode.
  - destruct (execution_reports_of_the_embedding_node (E := Qdrant.client true) 2
                [(py "doc", letters "b" 1500)]
                (Extract.converted_index Extract.initial_locals) Qdrant.empty
                Qdrant.ready s' r c Hnode)
      as (w' & r' & c' & summary & _ & _ & Hone & Hsum & _).
    exists summary. split; [exact Hone|]. rewrite Hsum.
    vm_compute in Hnode. injection Hnode as _ <- _. reflexivity.
  - vm_compute in Hnode. discriminate Hnode.
  - vm_compute in Hnode. discriminate Hnode.
Defined.

(** * Further properties of the extract pipeline *)

Lemma str_eqb_eq (a b : str) : str_eqb a b = true <-> a = b.
Proof.
  unfold str_eqb. destruct (list_eq_dec N.eq_dec a b); split; congruence.
Qed.

Lemma keys_dict_set {V} (d : dict V) (k : str) (v : V) (k' : str) :
  In k' (keys (dict_set d k v)) <-> In k' (keys d) \/ k' = k.
Proof.
  unfold keys. induction d as [|[k0 v0] d IH]; simpl.
  - intuition.
  - destruct (str_eqb k0 k) eqn:Hk; simpl.
    + apply str_eqb_eq in Hk. subst k0. intuition.
    + rewrite IH. intuition.
Qed.

Lemma NoDup_dict_set {V} (d : dict V) (k : str) (v : V) :
  NoDup (keys d) -> NoDup (keys (dict_set d k v)).
Proof.
  unfold keys. induction d as [|[k0 v0] d IH]; simpl; intros Hd.
  - constructor; [intros []|constructor].
  - inversion Hd as [|? ? Hnotin Hrest]; subst.
    destruct (str_eqb k0 k) eqn:Hk; simpl.
    + apply str_eqb_eq in Hk. subst k0. now constructor.
    + constructor; [|now apply IH].
      intros Hin. apply (keys_dict_set d k v k0) in Hin as [Hin| ->].
      * now apply Hnotin.
      * rewrite str_eqb_refl in Hk. discriminate.
Qed.

Section ExtractLoop.
Import Extract.
Context {W : Type} {E : Env W}.

(** The three outcomes of an iteration: the key is listed as failed, as
    converted, or as converted and then as failed. *)
Lemma convert_one_outcomes (bucket_name pdf_key : str) (w : W) (l : locals) :
  exists w' l',
    convert_one bucket_name pdf_key (w, l) = Some ((w', l'), Ok tt) /\
    ((exists e, l' = on_index index_processed (on_index (index_failure pdf_key e) l)) \/
     (exists text_content,
        l' = on_index index_processed (converted pdf_key text_content l)) \/
     (exists text_content e,
        l' = on_index index_processed
               (on_index (index_failure pdf_key e)
                  (converted pdf_key text_content l)))).
Proof.
  unfold convert_one, bind, try_except.
  destruct (try_body_cases bucket_name pdf_key w l)
    as (w1 & l1 & r & -> & [[-> [e ->]] | [text_content ->]]).
  - unfold record_failure, count_processed, modify. cbn [fst snd].
    do 2 eexists. split; [reflexivity|]. eauto.
  - destruct r as [[]|e]; unfold record_failure, count_processed, modify;
      cbn [fst snd]; do 2 eexists; (split; [reflexivity|]); eauto.
Qed.

(** A property of the local variables that the three updates keep holds
    after the loop. *)
Lemma convert_loop_preserves (P : locals -> Prop) (bucket_name : str) :
  (forall l pdf_key text_content, P l -> P (converted pdf_key text_content l)) ->
  (forall l pdf_key e, P l -> P (on_index (index_failure pdf_key e) l)) ->
  (forall l, P l -> P (on_index index_processed l)) ->
  forall pdf_files (w : W) (l : locals),
    P l ->
    exists w' l',
      convert_loop bucket_name pdf_files (w, l) = Some ((w', l'), Ok tt) /\ P l'.
Proof.
  intros Hconverted Hfailed Hprocessed. unfold convert_loop.
  induction pdf_files as [|pdf_key rest IH]; intros w l Hl; cbn [for_each].
  - exists w, l. split; [reflexivity|assumption].
  - unfold bind at 1.
    destruct (convert_one_outcomes bucket_name pdf_key w l)
      as (w1 & l1 & -> & [[e ->] | [[text_content ->] | (text_content & e & ->)]]);
      apply IH; auto.
Qed.

(** The keys that the loop lists are the keys it was given. *)
Lemma convert_loop_keys (bucket_name : str) (pdf_files : list str) :
  forall (w w' : W) (l l' : locals) r,
    convert_loop bucket_name pdf_files (w, l) = Some ((w', l'), r) ->
    (forall k,
       In k (converted_keys (converted_index l') ++ failed_keys (converted_index l'))
       <-> In k (converted_keys (converted_index l) ++ failed_keys (converted_index l))
           \/ In k pdf_files) /\
    total_successful (converted_index l) + total_failed (converted_index l)
      + len pdf_files
    <= total_successful (converted_index l') + total_failed (converted_index l')
    <= total_successful (converted_index l) + total_failed (converted_index l)
       + 2 * len pdf_files.
Proof.
  unfold convert_loop.
  induction pdf_files as [|pdf_key rest IH]; intros w w' l l' r; cbn [for_each].
  - unfold ret. intros [= _ <- _]. split; [intros k; cbn [In]; intuition|].
    unfold len. simpl. lia.
  - unfold bind at 1.
    destruct (convert_one_outcomes bucket_name pdf_key w l)
      as (w1 & l1 & -> & Hcases).
    intros Hrest. apply IH in Hrest as [Hkeys Hcount].
    assert (Hlen : len (pdf_key :: rest) = len rest + 1)
      by (unfold len; cbn [List.length]; lia).
    rewrite Hlen.
    destruct Hcases as [[e ->] | [[text_content ->] | (text_content & e & ->)]];
      unfold converted_keys, failed_keys, converted in *;
      cbn [on_index index_processed index_failure index_success converted_index
           converted_files failed_files total_successful total_failed
           total_processed] in Hkeys, Hcount.
    all: split; [|lia].
    all: intros k; rewrite Hkeys; rewrite ?map_app, !in_app_iff; cbn; intuition.
Qed.
End ExtractLoop.

Section ExtractNodeFacts.
Import Extract.
Context {W : Type} {E : Env W}.

(** Once its two constructors have returned, the node is its loop. *)
Lemma convert_node_through_loop (pdf_files : list str) (bucket_name : str)
    (w w1 w2 : W) :
  boto3_client w = (w1, Ok tt) ->
  DocumentConverter w1 = (w2, Ok tt) ->
  forall w' l',
    convert_loop bucket_name pdf_files (w2, initial_locals) = Some ((w', l'), Ok tt) ->
    convert_pdfs_to_text pdf_files bucket_name (w, tt) = Some ((w', tt), Ok l').
Proof.
  intros Hclient Hconverter w' l' Hloop. unfold convert_pdfs_to_text.
  unfold bind at 1, call at 1. cbn [fst snd]. rewrite Hclient.
  unfold bind at 1, call at 1. cbn [fst snd]. rewrite Hconverter.
  unfold bind, block, ret. cbn [fst snd]. rewrite Hloop. reflexivity.
Qed.

Lemma convert_node_returned (pdf_files : list str) (bucket_name : str)
    (w : W) (s' : W * unit) (l : locals) :
  convert_pdfs_to_text pdf_files bucket_name (w, tt) = Some (s', Ok l) ->
  exists w2 w',
    convert_loop bucket_name pdf_files (w2, initial_locals) = Some ((w', l), Ok tt).
Proof.
  unfold convert_pdfs_to_text.
  unfold bind at 1, call at 1. cbn [fst snd].
  destruct (boto3_client w) as [w1 [[]|e]]; [|discriminate].
  unfold bind at 1, call at 1. cbn [fst snd].
  destruct (DocumentConverter w1) as [w2 [[]|e]]; [|discriminate].
  unfold bind, block, ret. cbn [fst snd].
  destruct (convert_loop_returns bucket_name pdf_files (w2, initial_locals))
    as ([w' l'] & Hloop & _).
  rewrite Hloop. intros [= _ <-]. eauto.
Qed.
End ExtractNodeFacts.

(** X10, the conversion index.  Once the S3 client and the converter are
    built, [convert_pdfs_to_text] returns for every list of keys, whatever
    the downloads, conversions and uploads do.  In the index it returns,
    [total_processed] is the number of keys, [total_successful] and
    [total_failed] are the lengths of [converted_files] and [failed_files],
    the keys listed are exactly the keys given, each in at least one of the
    two lists, and [total_successful + total_failed] lies between the
    number of keys and twice that number. *)
Theorem conversion_index_counts {W : Type} {E : Extract.Env W}
    (pdf_files : list str) (bucket_name : str) (w w1 w2 : W) :
  Extract.boto3_client w = (w1, Ok tt) ->
  Extract.DocumentConverter w1 = (w2, Ok tt) ->
  exists w' l,
    Extract.convert_pdfs_to_text pdf_files bucket_name (w, tt)
      = Some ((w', tt), Ok l) /\
    Extract.total_processed (Extract.converted_index l) = len pdf_files /\
    Extract.total_successful (Extract.converted_index l)
      = len (Extract.converted_files (Extract.converted_index l)) /\
    Extract.total_failed (Extract.converted_index l)
      = len (Extract.failed_files (Extract.converted_index l)) /\
    (forall k,
       In k pdf_files <->
       In k (Extract.converted_keys (Extract.converted_index l)) \/
       In k (Extract.failed_keys (Extract.converted_index l))) /\
    len pdf_files
      <= Extract.total_successful (Extract.converted_index l)
         + Extract.total_failed (Extract.converted_index l)
      <= 2 * len pdf_files.
Proof.
  intros Hclient Hconverter.
  destruct (convert_loop_preserves
              (fun l =>
                 Extract.total_successful (Extract.converted_index l)
                   = len (Extract.converted_files (Extract.converted_index l)) /\
                 Extract.total_failed (Extract.converted_index l)
                   = len (Extract.failed_files (Extract.converted_index l)))
              bucket_name) with (pdf_files := pdf_files) (w := w2)
              (l := Extract.initial_locals)
    as (w' & l & Hloop & Hs & Hf).
  - intros l0 k t [Hs Hf]. unfold converted. cbn. rewrite len_app, Hs. auto.
  - intros l0 k e [Hs Hf]. cbn. rewrite len_app, Hf. auto.
  - intros l0 [Hs Hf]. cbn. auto.
  - split; reflexivity.
  - exists w', l.
    split; [eapply convert_node_through_loop; eassumption|].
    destruct (convert_loop_returns bucket_name pdf_files (w2, Extract.initial_locals))
      as (s1 & H1 & Hprocessed).
    rewrite Hloop in H1. injection H1 as <-. cbn [snd] in Hprocessed.
    destruct (convert_loop_keys _ _ _ _ _ _ _ Hloop) as [Hkeys Hcount].
    cbn in Hkeys.
    unfold Extract.initial_locals in Hcount, Hprocessed.
    cbn [Extract.converted_index Extract.total_successful Extract.total_failed
         Extract.total_processed] in Hcount, Hprocessed.
    split; [lia|].
    split; [exact Hs|]. split; [exact Hf|].
    split; [|lia].
    intros k. rewrite <- in_app_iff, Hkeys. intuition.
Qed.

Lemma conversion_index_counts_witness :
  exists w' l,
    Extract.convert_pdfs_to_text (E := scripted_store (str_eqb (py "raw/pdfs/a.pdf")) true)
      [py "raw/pdfs/missing.pdf"; py "raw/pdfs/a.pdf"] (py "meu-bucket") (tt, tt)
      = Some ((w', tt), Ok l) /\
    Extract.total_processed (Extract.converted_index l) = 2 /\
    Extract.total_successful (Extract.converted_index l) = 1 /\
    Extract.total_failed (Extract.converted_index l) = 1.
Proof.
  destruct (conversion_index_counts
              (E := scripted_store (str_eqb (py "raw/pdfs/a.pdf")) true)
              [py "raw/pdfs/missing.pdf"; py "raw/pdfs/a.pdf"] (py "meu-bucket")
              tt tt tt eq_refl eq_refl)
    as (w' & l & Hnode & Hp & _).
  exists w', l. split; [exact Hnode|]. split; [exact Hp|].
  vm_compute in Hnode. injection Hnode as _ <-. split; reflexivity.
Defined.

(** X11, the texts handed on.  In what [convert_pdfs_to_text] returns, the
    keys of [texts_partitioned] are the [filename]s of the converted
    files, each once: two keys with the same stem share one entry, so that
    [texts_partitioned] may hold fewer texts than [total_successful]. *)
Theorem texts_are_keyed_by_filename {W : Type} {E : Extract.Env W}
    (pdf_files : list str) (bucket_name : str) (w : W) (s' : W * unit)
    (l : Extract.locals) :
  Extract.convert_pdfs_to_text pdf_files bucket_name (w, tt) = Some (s', Ok l) ->
  NoDup (keys (Extract.texts_data l)) /\
  (forall name,
     In name (keys (Extract.texts_data l)) <->
     In name (map Extract.filename
                (Extract.converted_files (Extract.converted_index l)))) /\
  len (Extract.texts_data l) <= Extract.total_successful (Extract.converted_index l).
Proof.
  intros Hnode. apply convert_node_returned in Hnode as (w2 & w' & Hloop).
  destruct (convert_loop_preserves
              (fun l =>
                 NoDup (keys (Extract.texts_data l)) /\
                 (forall name,
                    In name (keys (Extract.texts_data l)) <->
                    In name (map Extract.filename
                               (Extract.converted_files (Extract.converted_index l)))) /\
                 Extract.total_successful (Extract.converted_index l)
                   = len (Extract.converted_files (Extract.converted_index l)))
              bucket_name) with (pdf_files := pdf_files) (w := w2)
              (l := Extract.initial_locals)
    as (w3 & l3 & Hloop3 & Hnodup & Hkeys & Hcount).
  - intros l0 k t (Hn & Hk & Hc). unfold converted.
    cbn [Extract.texts_data Extract.converted_index Extract.on_index
         Extract.index_success Extract.converted_files Extract.total_successful].
    split; [now apply NoDup_dict_set|]. split.
    + intros name. rewrite keys_dict_set, map_app, in_app_iff, Hk. cbn.
      intuition.
    + rewrite len_app, Hc. reflexivity.
  - intros l0 k e H. exact H.
  - intros l0 H. exact H.
  - cbn. split; [constructor|]. split; [intuition|reflexivity].
  - rewrite Hloop in Hloop3. injection Hloop3 as _ <-.
    split; [exact Hnodup|]. split; [exact Hkeys|].
    rewrite Hcount. unfold len.
    apply inj_le.
    replace (List.length (Extract.texts_data l))
      with (List.length (keys (Extract.texts_data l)))
      by (unfold keys; apply length_map).
    replace (List.length (Extract.converted_files (Extract.converted_index l)))
      with (List.length (map Extract.filename
                           (Extract.converted_files (Extract.converted_index l))))
      by apply length_map.
    apply NoDup_incl_length; [exact Hnodup|].
    intros name. apply Hkeys.
Qed.

Lemma texts_are_keyed_by_filename_witness :
  exists l,
    keys (Extract.texts_data l) = [py "x"] /\
    Extract.total_successful (Extract.converted_index l) = 2 /\
    len (Extract.texts_data l) <= Extract.total_successful (Extract.converted_index l).
Proof.
  destruct (Extract.convert_pdfs_to_text (E := scripted_store (fun _ => true) true)
              [py "a/x.pdf"; py "b/x.pdf"] (py "meu-bucket") (tt, tt))
    as [[s' [l|e]]|] eqn:Hnode.
  - exists l.
    destruct (texts_are_keyed_by_filename
                (E := scripted_store (fun _ => true) true)
                [py "a/x.pdf"; py "b/x.pdf"] (py "meu-bucket") tt s' l Hnode)
      as (_ & _ & Hle).
    vm_compute in Hnode. injection Hnode as _ <-.
    split; [reflexivity|]. split; [reflexivity|exact Hle].
  - vm_compute in Hnode. discriminate Hnode.
  - vm_compute in Hnode. discriminate Hnode.
Defined.

(** X12, the exceptions of the conversion node.  When
    [convert_pdfs_to_text] raises, the exception is the one of
    [boto3.client] or of [DocumentConverter]: no exception of an item
    leaves the node. *)
Theorem conversion_node_raises_only_from_set_up {W : Type} {E : Extract.Env W}
    (pdf_files : list str) (bucket_name : str) (w : W) (s' : W * unit) (e : exn) :
  Extract.convert_pdfs_to_text pdf_files bucket_name (w, tt) = Some (s', Raise e) ->
  (exists w1, Extract.boto3_client w = (w1, Raise e)) \/
  (exists w1 w2,
     Extract.boto3_client w = (w1, Ok tt) /\
     Extract.DocumentConverter w1 = (w2, Raise e)).
Proof.
  intros Hnode. unfold Extract.convert_pdfs_to_text in Hnode.
  unfold bind at 1, call at 1 in Hnode. cbn [fst snd] in Hnode.
  destruct (Extract.boto3_client w) as [w1 [[]|e1]] eqn:Hclient;
    [|injection Hnode as _ <-; left; eauto].
  unfold bind at 1, call at 1 in Hnode. cbn [fst snd] in Hnode.
  destruct (Extract.DocumentConverter w1) as [w2 [[]|e2]] eqn:Hconverter;
    [|injection Hnode as _ <-; right; eauto].
  exfalso. unfold bind, block, ret in Hnode. cbn [fst snd] in Hnode.
  destruct (convert_loop_returns bucket_name pdf_files (w2, Extract.initial_locals))
    as ([w' l'] & Hloop & _).
  rewrite Hloop in Hnode. discriminate Hnode.
Qed.

Lemma conversion_node_raises_only_from_set_up_witness :
  (exists w1, Extract.boto3_client (Env := broken_store) tt
              = (w1, Raise (Exception (py "Invalid endpoint")))) \/
  (exists w1 w2,
     Extract.boto3_client (Env := broken_store) tt = (w1, Ok tt) /\
     Extract.DocumentConverter (Env := broken_store) w1
       = (w2, Raise (Exception (py "Invalid endpoint")))).
Proof.
  apply (conversion_node_raises_only_from_set_up (E := broken_store)
           [py "raw/pdfs/a.pdf"] (py "meu-bucket") tt (tt, tt)).
  vm_compute. reflexivity.
Defined.

(** *** The lister *)

Lemma slice_to_end {A} (s : list A) (a : Z) :
  0 <= a <= len s -> slice s a (len s) = skipn (Z.to_nat a) s.
Proof.
  intros Ha. unfold slice. rewrite !adjust_index_id by lia.
  apply firstn_all2. rewrite length_skipn. unfold len. lia.
Qed.

Lemma endswith_spec (s suffix : str) :
  Lister.endswith s suffix = true <-> exists before, s = before ++ suffix.
Proof.
  unfold Lister.endswith. rewrite andb_true_iff, Z.leb_le, str_eqb_eq. split.
  - intros [Hlen Hslice].
    rewrite slice_to_end in Hslice by (unfold len in *; lia).
    exists (firstn (Z.to_nat (len s - len suffix)) s).
    rewrite <- Hslice at 2. now rewrite firstn_skipn.
  - intros [before ->]. rewrite len_app. split; [unfold len; lia|].
    rewrite <- len_app. rewrite slice_to_end by (rewrite len_app; unfold len; lia).
    rewrite len_app.
    replace (Z.to_nat (len before + len suffix - len suffix))
      with (List.length before) by (unfold len; lia).
    rewrite skipn_app, skipn_all, Nat.sub_diag. reflexivity.
Qed.

Lemma collect_filter {W : Type} {E : Lister.Env W}
    (contents : list Lister.s3_object) :
  forall pdf_files,
    Lister.collect contents pdf_files =
    pdf_files ++ filter Lister.is_pdf (map Lister.Key contents).
Proof.
  induction contents as [|obj rest IH]; intros pdf_files; cbn [Lister.collect map filter].
  - now rewrite app_nil_r.
  - rewrite IH. destruct (Lister.is_pdf (Lister.Key obj)).
    + now rewrite <- app_assoc.
    + reflexivity.
Qed.

(** X13, the lister.  [list_pdfs_from_s3] raises the exception of
    [boto3.client] or of [list_objects_v2] unchanged; otherwise it returns,
    in the order of the listing, exactly the listed keys whose lower-cased
    form ends with [.pdf], and the empty list when the answer has no
    ['Contents']. *)
Theorem list_pdfs_from_s3_result {W : Type} {E : Lister.Env W}
    (bucket_name prefix : str) (w : W) :
  Lister.list_pdfs_from_s3 bucket_name prefix (w, tt) =
    (match Lister.boto3_client w with
     | (w1, Raise e) => Some ((w1, tt), Raise e)
     | (w1, Ok _) =>
         match Lister.list_objects_v2 bucket_name prefix w1 with
         | (w2, Raise e) => Some ((w2, tt), Raise e)
         | (w2, Ok response) =>
             Some ((w2, tt),
                   Ok (filter Lister.is_pdf
                         (match Lister.Contents response with
                          | Some contents => map Lister.Key contents
                          | None => []
                          end)))
         end
     end) /\
  (forall key,
     Lister.is_pdf key = true <->
     exists before, Lister.lower key = before ++ py ".pdf").
Proof.
  split; [|intros key; apply endswith_spec].
  unfold Lister.list_pdfs_from_s3, try_except.
  unfold bind at 1, call at 1. cbn [fst snd].
  destruct (Lister.boto3_client w) as [w1 [[]|e]]; [|reflexivity].
  unfold bind, call, ret, raise. cbn [fst snd].
  destruct (Lister.list_objects_v2 bucket_name prefix w1) as [w2 [response|e]];
    [|reflexivity].
  destruct (Lister.Contents response) as [contents|]; [|reflexivity].
  now rewrite collect_filter.
Qed.

Example list_pdfs_from_s3_example :
  Lister.list_pdfs_from_s3
    (E := scripted_bucket true
            (Some [py "raw/pdfs/A.PDF"; py "raw/pdfs/notes.txt"; py "raw/pdfs/b.pdf"]))
    (py "meu-bucket") (py "raw/pdfs/") (tt, tt)
  = Some ((tt, tt), Ok [py "raw/pdfs/A.PDF"; py "raw/pdfs/b.pdf"]) /\
  Lister.list_pdfs_from_s3 (E := scripted_bucket true None)
    (py "meu-bucket") (py "raw/pdfs/") (tt, tt)
  = Some ((tt, tt), Ok []) /\
  Lister.list_pdfs_from_s3 (E := scripted_bucket false None)
    (py "meu-bucket") (py "raw/pdfs/") (tt, tt)
  = Some ((tt, tt), Raise (Exception (py "Could not connect to the endpoint URL"))).
Proof. repeat split; vm_compute; reflexivity. Qed.

(** X14, termination on texts without a space.  For
    [0 <= overlap < chunk_size], the chunking of a text that holds no space
    character returns within [ceil(len(text) / (chunk_size - overlap))]
    iterations of the loop. *)
Theorem chunking_without_spaces_terminates (fuel : nat) (text : str)
    (chunk_size overlap : Z) :
  ~ In space text -> 0 <= overlap < chunk_size ->
  len text <= Z.of_nat fuel * (chunk_size - overlap) ->
  exists chunks,
    Chunker._split_text_into_chunks fuel text chunk_size overlap = Some chunks.
Proof. apply split_text_into_chunks_hard_cuts_terminate. Qed.

Lemma chunking_without_spaces_terminates_witness :
  exists chunks,
    Chunker._split_text_into_chunks 4 (py "abcdefghijklmnopqrstuvwxyz") 10 3
      = Some chunks.
Proof.
  apply (chunking_without_spaces_terminates 4 (py "abcdefghijklmnopqrstuvwxyz") 10 3).
  - intros H. vm_compute in H.
    repeat (destruct H as [H|H]; [discriminate H|]). exact H.
  - lia.
  - vm_compute. discriminate.
Defined.

(** * Errors of single items and the end of the loops *)

(** An exception of the [try] body of a key adds to [failed_files] the
    entry of the key with [str(e)], leaves [converted_files] alone, and the
    loop goes on with the keys that remain. *)
Lemma convert_failure_is_recorded {W : Type} {E : Extract.Env W}
    (bucket_name pdf_key : str) (s s1 : W * Extract.locals) (e : exn) :
  Extract.try_body bucket_name pdf_key s = Some (s1, Raise e) ->
  exists s2,
    Extract.convert_one bucket_name pdf_key s = Some (s2, Ok tt) /\
    Extract.failed_files (Extract.converted_index (snd s2)) =
      Extract.failed_files (Extract.converted_index (snd s1)) ++
      [ {| Extract.failed_original_pdf := pdf_key;
           Extract.error := str_of e;
           Extract.failed_status := py "failed" |} ] /\
    Extract.converted_files (Extract.converted_index (snd s2)) =
      Extract.converted_files (Extract.converted_index (snd s1)) /\
    Extract.total_failed (Extract.converted_index (snd s2)) =
      Extract.total_failed (Extract.converted_index (snd s1)) + 1 /\
    forall rest,
      Extract.convert_loop bucket_name (pdf_key :: rest) s =
      Extract.convert_loop bucket_name rest s2.
Proof.
  intros H. eexists. split; [apply convert_one_raise; exact H|].
  cbn. repeat split.
  intros rest. unfold Extract.convert_loop. cbn [for_each]. unfold bind at 1.
  now rewrite (convert_one_raise _ _ _ _ _ H).
Qed.

(** The same for a document of the embedding loop. *)
Lemma embed_failure_is_recorded {W : Type} {E : Embedding.Env W}
    (fuel : nat) (item : str * str) (s s1 : W * Embedding.locals) (e : exn) :
  Embedding.try_body fuel (fst item) (snd item) s = Some (s1, Raise e) ->
  exists s2,
    Embedding.embed_one fuel item s = Some (s2, Ok tt) /\
    Embedding.failed_documents (fst (snd s2)) =
      Embedding.failed_documents (fst (snd s1)) ++
      [ {| Embedding.failed_filename := fst item;
           Embedding.error := str_of e;
           Embedding.failed_status := py "failed" |} ] /\
    Embedding.processed_documents (fst (snd s2)) =
      Embedding.processed_documents (fst (snd s1)) /\
    forall rest,
      Embedding.embed_loop fuel (item :: rest) s =
      Embedding.embed_loop fuel rest s2.
Proof.
  intros H. eexists. split; [apply embed_one_raise; exact H|].
  cbn. repeat split.
  intros rest. unfold Embedding.embed_loop. cbn [for_each]. unfold bind at 1.
  now rewrite (embed_one_raise _ _ _ _ _ H).
Qed.





